(** * XMLtoJSON: a shallow embedding of [XMLtoJSON.py]

    The development follows the source file top-down: the helpers
    [matching_tag] and [last_index], the schema tree [XMLStructureNode], the
    depth stack, the record model [XMLObject], the lexer [Parser] and the
    validator / serializer [Converter].

    Modelling conventions.
    - A Python [str] is a [string]; a character is a code point below 256
      (an [ascii] read as Latin-1), and the built-in predicates [isdigit],
      [isprintable] and the white space stripped by [strip] are the Unicode
      ones restricted to that range.
    - A Python [int] is a [Z]; list positions are [nat] where the source can
      only produce a position, and [Z] where it also uses the sentinel [-1].
    - An uncaught Python exception is the [Raise] outcome of [result].
    - A [Queue] of lines or diagnostics is the list of what was put, oldest
      first. *)

From Stdlib Require Import ZArith Ascii DecimalString.
From stdpp Require Import base list strings.

Local Open Scope Z_scope.
Local Set Warnings "-register-all".

(** ** Outcomes of fallible code *)

Inductive exn := IndexError | ValueError | AttributeError.

Inductive result (A : Type) :=
  | Ok (a : A)
  | Raise (e : exn).
Arguments Ok {A} a.
Arguments Raise {A} e.

#[global] Instance result_ret : MRet result := fun A a => Ok a.

#[global] Instance result_bind : MBind result := fun A B k r =>
  match r with
  | Ok a => k a
  | Raise e => Raise e
  end.

(** ** Python built-ins on [str] *)

Module Py.

(** The characters the source writes with an escape. *)
Definition dq : string := String "034" EmptyString.
Definition nl : string := String "010" EmptyString.
Definition tab : string := String "009" EmptyString.

Definition ord (c : ascii) : Z := Z.of_N (Ascii.N_of_ascii c).

Definition between (lo hi x : Z) : bool := (lo <=? x) && (x <=? hi).

(** [str.isdigit] on one character: Numeric_Type Decimal or Digit. *)
Definition isdigit_char (c : ascii) : bool :=
  let o := ord c in
  between 48 57 o || (o =? 178) || (o =? 179) || (o =? 185).

(** [str.isprintable] on one character. *)
Definition isprintable_char (c : ascii) : bool :=
  let o := ord c in
  between 32 126 o || between 161 172 o || between 174 255 o.

(** White space in the sense of [str.strip] and [str.isspace]. *)
Definition isspace_char (c : ascii) : bool :=
  let o := ord c in
  between 9 13 o || between 28 32 o || (o =? 133) || (o =? 160).

Fixpoint all_chars (p : ascii -> bool) (s : string) : bool :=
  match s with
  | EmptyString => true
  | String c s' => p c && all_chars p s'
  end.

Fixpoint any_char (p : ascii -> bool) (s : string) : bool :=
  match s with
  | EmptyString => false
  | String c s' => p c || any_char p s'
  end.

(** [s.isdigit()]: non-empty and made of digits only. *)
Definition isdigit (s : string) : bool :=
  match s with
  | EmptyString => false
  | _ => all_chars isdigit_char s
  end.

(** [s.isprintable()]. *)
Definition isprintable (s : string) : bool := all_chars isprintable_char s.

(** [s.strip() != ""]. *)
Definition strip_nonempty (s : string) : bool :=
  any_char (fun c => negb (isspace_char c)) s.

(** [len(s)]. *)
Definition len (s : string) : Z := Z.of_nat (String.length s).

(** [s[i]] for [i >= 0]. *)
Definition get (s : string) (i : nat) : result ascii :=
  match String.get i s with
  | Some c => Ok c
  | None => Raise IndexError
  end.

(** [s[i:]] for [i >= 0]. *)
Fixpoint slice_from (i : nat) (s : string) : string :=
  match i, s with
  | O, _ => s
  | S i', EmptyString => EmptyString
  | S i', String _ s' => slice_from i' s'
  end.

(** [str(n)]. *)
Definition str (n : Z) : string := NilZero.string_of_int (Z.to_int n).

(** [c in s] for a character [c]. *)
Definition char_in (c : ascii) (s : string) : bool :=
  any_char (Ascii.eqb c) s.

(** [s.replace(old, "", count)] for a one-character [old]: the first
    [count] occurrences are removed; a negative [count] removes all. *)
Fixpoint remove_char_fuel (old : ascii) (count : option nat) (s : string) : string :=
  match s with
  | EmptyString => EmptyString
  | String c s' =>
      if Ascii.eqb c old then
        match count with
        | None => remove_char_fuel old None s'
        | Some O => s
        | Some (S k) => remove_char_fuel old (Some k) s'
        end
      else String c (remove_char_fuel old count s')
  end.

Definition remove_char (old : ascii) (count : Z) (s : string) : string :=
  remove_char_fuel old (if count <? 0 then None else Some (Z.to_nat count)) s.

End Py.

(** ** Module-level helpers *)

(** [matching_tag]: [tag[1]] raises [IndexError] on a string shorter than two
    characters. *)
Definition matching_tag (tag : string) : result string :=
  c ← Py.get tag 1;
  if Ascii.eqb c "/" then Ok ("<" +:+ Py.slice_from 2 tag)
  else Ok ("</" +:+ Py.slice_from 1 tag).

(** [_list[-1::-1].index(_value)]: position of the first occurrence in the
    reversed list. *)
Fixpoint index_of (l : list string) (v : string) : result nat :=
  match l with
  | [] => Raise ValueError
  | x :: l' => if decide (x = v) then Ok O else i ← index_of l' v; Ok (S i)
  end.

Definition last_index (_list : list string) (_value : string) : result nat :=
  i ← index_of (reverse _list) _value;
  Ok (length _list - i - 1)%nat.

(** ** [XMLStructureNode]: the schema tree

    The [parent] attribute is a back-reference set by [add_child]; in a tree
    built by [add_child] it is the node whose [children] hold this one, and
    [None] for the top node.  The traversals below carry it along. *)

Inductive XMLStructureNode :=
  Node {
    value : string;
    repeatable : bool;
    allowed_values : option (list string);
    children : list XMLStructureNode
  }.

Definition has_child (n : XMLStructureNode) : bool :=
  if decide (0 < length (children n))%nat then true else false.

Definition find_child (n : XMLStructureNode) (v : string) : option XMLStructureNode :=
  find (fun child => bool_decide (value child = v)) (children n).

(** Equality of schema nodes.  The source compares node objects by identity
    ([self.stack.top == self.structure]); every node it compares with the top
    of the schema is a node of that schema, and a tree is equal to none of its
    strict sub-trees, so equality of trees decides the same question. *)
Fixpoint node_eqb (a b : XMLStructureNode) {struct a} : bool :=
  match a, b with
  | Node va ra la ca, Node vb rb lb cb =>
      bool_decide (va = vb) && bool_decide (ra = rb) && bool_decide (la = lb) &&
      (fix children_eqb (l l' : list XMLStructureNode) {struct l} : bool :=
         match l, l' with
         | [], [] => true
         | x :: m, y :: m' => node_eqb x y && children_eqb m m'
         | _, _ => false
         end) ca cb
  end.

(** ** [XMLStructureStack]

    [top] is at every moment the node put last and not yet taken; the model
    keeps the LIFO content as a list, most recent first, and reads [top] off
    its head.  A [LifoQueue] built without a size is never full, so [push]
    always succeeds. *)

Definition XMLStructureStack := list XMLStructureNode.

Definition top (s : XMLStructureStack) : option XMLStructureNode := head s.

Definition push (s : XMLStructureStack) (node : XMLStructureNode) : XMLStructureStack :=
  node :: s.

Definition pop (s : XMLStructureStack) : XMLStructureStack := tail s.

(** ** [XMLObject]: one record *)

Module XMLObject.

Record t := {
  structure : XMLStructureNode;
  tags : list string;
  values : list (option string)
}.

(** [build]: appends one slot per childless node below [_structure]. *)
Fixpoint build_slots (_structure : XMLStructureNode)
    (acc : list string * list (option string)) {struct _structure}
    : list string * list (option string) :=
  match _structure with
  | Node v _ _ [] => (acc.1 ++ [v], acc.2 ++ [None])
  | Node _ _ _ cs =>
      (fix each (l : list XMLStructureNode) acc {struct l} :=
         match l with
         | [] => acc
         | child :: l' => each l' (build_slots child acc)
         end) cs acc
  end.

Definition build (o : t) (_structure : XMLStructureNode) : t :=
  let '(t, v) := build_slots _structure (tags o, values o) in
  {| structure := structure o; tags := t; values := v |}.

(** [XMLObject(_structure)]. *)
Definition init (_structure : XMLStructureNode) : t :=
  build {| structure := _structure; tags := []; values := [] |} _structure.

(** [tag_to_node]: the first node, top-down and left to right, whose tag is
    [_tag], together with its [parent] attribute. *)
Fixpoint tag_to_node (parent : option XMLStructureNode)
    (_structure : XMLStructureNode) (_tag : string) {struct _structure}
    : option (XMLStructureNode * option XMLStructureNode) :=
  match _structure with
  | Node v _ _ cs =>
      if decide (v = _tag) then Some (_structure, parent)
      else
        (fix each (l : list XMLStructureNode) {struct l} :=
           match l with
           | [] => None
           | child :: l' =>
               match tag_to_node (Some _structure) child _tag with
               | Some node => Some node
               | None => each l'
               end
           end) cs
  end.

(** [list.index(x, start)]: a negative [start] counts from the end. *)
Fixpoint index_from (l : list string) (v : string) (start pos : nat) : option nat :=
  match l with
  | [] => None
  | x :: l' =>
      if decide (start <= pos)%nat then
        if decide (x = v) then Some pos else index_from l' v start (S pos)
      else index_from l' v start (S pos)
  end.

Definition list_index (l : list string) (v : string) (start : Z) : option nat :=
  let start := if start <? 0 then Z.max 0 (start + Z.of_nat (length l)) else start in
  index_from l v (Z.to_nat start) 0.

(** [get_value]; every caller passes an integer as [starting_index]. *)
Definition get_value (o : t) (tag : string) (starting_index : Z)
    : result (option string * Z) :=
  if Z.of_nat (length (tags o)) <=? starting_index then Ok (None, -1)
  else
    match list_index (tags o) tag starting_index with
    | Some index =>
        match values o !! index with
        | Some v => Ok (v, Z.of_nat index)
        | None => Raise IndexError
        end
    | None => Ok (None, -1)
    end.

(** [set_value].  The result is the record after the call, the calls made
    to the [error] method in order (message, string), and what the call
    returns or raises. *)
Definition store_value (o : t) (index : nat)
    (node : option (XMLStructureNode * option XMLStructureNode))
    (tag v : string)
    : t * list (string * string) * result bool :=
  match node with
  | None => (o, [], Raise AttributeError)
  | Some (n, _) =>
      let assign :=
        if decide (index < length (values o))%nat then
          ({| structure := structure o; tags := tags o;
              values := <[index := Some v]> (values o) |}, [], Ok true)
        else (o, [], Raise IndexError) in
      match allowed_values n with
      | Some allowed =>
          if decide (v ∈ allowed) then assign
          else (o, [("Value " +:+ Py.dq +:+ v +:+ Py.dq +:+ " is not allowed in this tag", tag)],
                Ok false)
      | None => assign
      end
  end.

Definition set_value (o : t) (tag v : string)
    : t * list (string * string) * result bool :=
  match last_index (tags o) tag with
  | Raise e => (o, [], Raise e)
  | Ok index =>
      let node := tag_to_node None (structure o) tag in
      match values o !! index with
      | None => (o, [], Raise IndexError)
      | Some None => store_value o index node tag v
      | Some (Some _) =>
          match node with
          | Some (_, None) => (o, [], Raise AttributeError)
          | Some (_, Some p) =>
              if repeatable p then
                let o' := build o p in
                match last_index (tags o') tag with
                | Raise e => (o', [], Raise e)
                | Ok index' => store_value o' index' node tag v
                end
              else (o, [("Duplicate value definition", tag)], Ok false)
          | None => (o, [("Duplicate value definition", tag)], Ok false)
          end
      end
  end.

End XMLObject.

(** ** The bundled schema *)

Definition field_tag : XMLStructureNode :=
  Node "<field>" true None
    [ Node "<name>" false None [];
      Node "<type>" false (Some ["int"; "string"]) [];
      Node "<value>" false None [] ].

Definition object_tag : XMLStructureNode :=
  Node "<object>" true None [ Node "<obj_name>" false None []; field_tag ].

(** ** [Parser]: the lexer

    The model reads the text of the input file, which is taken to exist and
    to be readable, and runs the thread function to its end. *)

Module Parser.

Record t := {
  queue : list string;
  error_stream : list string;
  char_counter : Z;
  value_tags : list string;
  other_tags : list string
}.

(** [build]: childless tags go to [value_tags], the others to
    [other_tags], top-down. *)
Fixpoint build_tags (_structure : XMLStructureNode)
    (acc : list string * list string) {struct _structure}
    : list string * list string :=
  match _structure with
  | Node v _ _ [] => (acc.1 ++ [v], acc.2)
  | Node v _ _ cs =>
      (fix each (l : list XMLStructureNode) acc {struct l} :=
         match l with
         | [] => acc
         | child :: l' => each l' (build_tags child acc)
         end) cs (acc.1, acc.2 ++ [v])
  end.

(** [__init__], without the start of the thread. *)
Definition init (_structure : XMLStructureNode) : t :=
  let '(vt, ot) := build_tags _structure ([], []) in
  {| queue := []; error_stream := []; char_counter := 0;
     value_tags := vt; other_tags := ot |}.

Definition put (p : t) (s : string) : t :=
  {| queue := queue p ++ [s]; error_stream := error_stream p;
     char_counter := char_counter p;
     value_tags := value_tags p; other_tags := other_tags p |}.

(** The number [error] prints after "Char". *)
Definition error_number (char_counter : Z) (message text : string) : Z :=
  if char_counter <? Py.len message then 0
  else char_counter - Py.len text.

Definition error_line (char_counter : Z) (message text : string) : string :=
  let number := error_number char_counter message text in
  if negb (Py.isprintable text) then
    "Char " +:+ Py.str number +:+ ": " +:+ message +:+ Py.nl
  else
    "Char " +:+ Py.str number +:+ ": " +:+ message +:+ ": " +:+ Py.dq +:+
    text +:+ Py.dq +:+ Py.nl.

Definition error (p : t) (message text : string) : t :=
  {| queue := queue p;
     error_stream := error_stream p ++ [error_line (char_counter p) message text];
     char_counter := char_counter p;
     value_tags := value_tags p; other_tags := other_tags p |}.

(** [read_char]: the character read, if any, the parser and the rest of
    the file. *)
Definition read_char (p : t) (file : string) : option ascii * t * string :=
  match file with
  | String char rest =>
      (Some char,
       {| queue := queue p; error_stream := error_stream p;
          char_counter := char_counter p + 1;
          value_tags := value_tags p; other_tags := other_tags p |},
       rest)
  | EmptyString => (None, p, EmptyString)
  end.

Definition is_value_tag (p : t) (tag : string) : bool :=
  bool_decide (tag ∈ value_tags p).

Definition is_correct_tag (p : t) (tag : string) : t * result bool :=
  if bool_decide (tag ∈ value_tags p) || bool_decide (tag ∈ other_tags p) then
    (p, Ok true)
  else
    match matching_tag tag with
    | Raise e => (p, Raise e)
    | Ok _matching_tag =>
        if bool_decide (_matching_tag ∈ value_tags p)
           || bool_decide (_matching_tag ∈ other_tags p)
        then (p, Ok true)
        else (error p "Found incorrect tag" tag, Ok false)
    end.

Definition illegal_characters : string := "<>" +:+ Py.dq +:+ "'&".

Definition is_correct_value (p : t) (value : string) : t * bool :=
  if Py.any_char (fun c => Py.char_in c illegal_characters) value then
    (error p "Found illegal characters in value" value, false)
  else if negb (Py.isprintable value) then
    (error p "Found non-printable characters in value" value, false)
  else (p, true).

(** The loop [while char != '>'] of the tag branch: the text read, the
    parser, the rest of the file, and whether the file ended first. *)
Fixpoint read_tag (p : t) (file : string) (text : string) {struct file}
    : string * t * string * bool :=
  match file with
  | EmptyString => (text, p, EmptyString, true)
  | String char rest =>
      let p := (read_char p file).1.2 in
      if Ascii.eqb char ">" then (text +:+ String char EmptyString, p, rest, false)
      else read_tag p rest (text +:+ String char EmptyString)
  end.

(** The loop [while True] of the value branch: it ends on ["<"], which is
    read but not added, or on the end of the file. *)
Fixpoint read_text (p : t) (file : string) (text : string) {struct file}
    : string * t * string * bool :=
  match file with
  | EmptyString => (text, p, EmptyString, true)
  | String char rest =>
      let p := (read_char p file).1.2 in
      if Ascii.eqb char "<" then (text, p, rest, false)
      else read_text p rest (text +:+ String char EmptyString)
  end.

(** The loop [while self.running] of [run].  [char] is the character kept
    from the previous round; the result is [None] when [fuel] rounds are
    not enough.  The second component of the result tells how the thread ended. *)
Fixpoint run_loop (fuel : nat) (p : t) (file : string) (char : option ascii)
    (read_value read_next_char : bool) {struct fuel}
    : option (t * result ()) :=
  match fuel with
  | O => None
  | S fuel =>
      let '(char, p, file) :=
        if read_next_char then read_char p file else (char, p, file) in
      match char with
      | None => Some (p, Ok ())
      | Some char =>
          if Ascii.eqb char "<" then
            let '(text, p, file, eof) :=
              read_tag p file (String char EmptyString) in
            match is_correct_tag p text with
            | (p, Raise e) => Some (p, Raise e)
            | (p, Ok correct) =>
                let read_value := correct && is_value_tag p text in
                let p := if correct then put p text else p in
                if eof then Some (p, Ok ())
                else run_loop fuel p file (Some ">"%char) read_value true
            end
          else
            let '(text, p, file, eof) :=
              read_text p file (String char EmptyString) in
            let p :=
              if read_value then
                let '(p, correct) := is_correct_value p text in
                if correct then put p text else p
              else if Py.strip_nonempty text then
                error p "Found incorrectly placed text" text
              else p in
            if eof then Some (p, Ok ())
            else run_loop fuel p file (Some "<"%char) false false
      end
  end.

(** [run] on a file whose text is [file]: every round reads at least one
    character, so one round per character and one more are enough. *)
Definition run (p : t) (file : string) : option (t * result ()) :=
  run_loop (S (String.length file)) p file None false true.

End Parser.

(** ** [Converter]: the validator and the serializer

    The model runs the validator on the queue the lexer has filled, after
    the lexer has ended: [read_string] finds a string as long as one is
    left, and the loop of [run] ends with the queue.

    [objects] holds references to records, and [current_object] may be
    appended to it more than once and changed afterwards.  The model keeps
    the entries appended before [current_object] was last replaced in
    [closed_objects], and counts in [current_appended] the entries that are
    [current_object] itself. *)

Module Converter.

Record t := {
  stack : XMLStructureStack;
  error_stream : list string;
  string_counter : Z;
  structure : XMLStructureNode;
  current_object : XMLObject.t;
  closed_objects : list XMLObject.t;
  current_appended : nat
}.

Definition objects (c : t) : list XMLObject.t :=
  closed_objects c ++ replicate (current_appended c) (current_object c).

Definition output_filename : string := "output.json".

(** [__init__]. *)
Definition init (_structure : XMLStructureNode) : t :=
  {| stack := []; error_stream := []; string_counter := 0;
     structure := _structure;
     current_object := XMLObject.init _structure;
     closed_objects := []; current_appended := 0 |}.

Definition with_stack (c : t) (s : XMLStructureStack) : t :=
  {| stack := s; error_stream := error_stream c;
     string_counter := string_counter c; structure := structure c;
     current_object := current_object c;
     closed_objects := closed_objects c;
     current_appended := current_appended c |}.

Definition put_error (c : t) (line : string) : t :=
  {| stack := stack c; error_stream := error_stream c ++ [line];
     string_counter := string_counter c; structure := structure c;
     current_object := current_object c;
     closed_objects := closed_objects c;
     current_appended := current_appended c |}.

(** [error], which every caller gives a string. *)
Definition error (c : t) (message text : string) : t :=
  put_error c ("String " +:+ Py.str (string_counter c) +:+ ": " +:+ message +:+
               ": " +:+ Py.dq +:+ text +:+ Py.dq +:+ Py.nl).

Definition obj_error_line (number : Z) (message : string) : string :=
  if decide (number = -1) then message +:+ Py.nl
  else "Object " +:+ Py.str number +:+ ": " +:+ message +:+ Py.nl.

Definition obj_error (c : t) (number : Z) (message : string) : t :=
  put_error c (obj_error_line number message).

(** The counting half of [read_string]. *)
Definition count_string (c : t) : t :=
  {| stack := stack c; error_stream := error_stream c;
     string_counter := string_counter c + 1; structure := structure c;
     current_object := current_object c;
     closed_objects := closed_objects c;
     current_appended := current_appended c |}.

(** [self.objects.append(self.current_object)]. *)
Definition append_current (c : t) : t :=
  {| stack := stack c; error_stream := error_stream c;
     string_counter := string_counter c; structure := structure c;
     current_object := current_object c;
     closed_objects := closed_objects c;
     current_appended := S (current_appended c) |}.

(** [self.current_object = XMLObject(self.structure)]. *)
Definition new_object (c : t) : t :=
  {| stack := stack c; error_stream := error_stream c;
     string_counter := string_counter c; structure := structure c;
     current_object := XMLObject.init (structure c);
     closed_objects := objects c;
     current_appended := 0 |}.

(** [self.current_object.set_value(tag, value, self.error)]. *)
Definition set_value (c : t) (tag v : string) : result t :=
  let '(o, errors, r) := XMLObject.set_value (current_object c) tag v in
  let c :=
    {| stack := stack c; error_stream := error_stream c;
       string_counter := string_counter c; structure := structure c;
       current_object := o;
       closed_objects := closed_objects c;
       current_appended := current_appended c |} in
  let c := foldl (fun c e => error c e.1 e.2) c errors in
  _ ← r; Ok c.

(** The loop [while self.stack.top is not None] that follows a [pop] in
    both recovery branches of [run]. *)
Fixpoint recover (_structure : XMLStructureNode) (text : string)
    (s : XMLStructureStack) {struct s} : XMLStructureStack :=
  match s with
  | [] => []
  | t :: below =>
      match find_child t text with
      | Some child_node => push s child_node
      | None =>
          if bool_decide (text = value _structure) && node_eqb t _structure
          then s
          else recover _structure text below
      end
  end.

(** The loop of [run]: one round for each string read at its head. *)
Fixpoint run_loop (c : t) (queue : list string) {struct queue} : result t :=
  match queue with
  | [] => Ok c
  | text :: queue =>
      let c := count_string c in
      match top (stack c) with
      | Some t =>
          closing ← matching_tag (value t);
          if decide (text = closing) then
            let c :=
              if decide (value t = value (structure c)) then append_current c
              else c in
            run_loop (with_stack c (pop (stack c))) queue
          else if (2 <? Py.len text) && bool_decide (String.get 1 text = Some "/"%char) then
            run_loop (error c ("Not a proper closing tag to " +:+ value t) text) queue
          else if has_child t then
            match find_child t text with
            | Some child_node => run_loop (with_stack c (push (stack c) child_node)) queue
            | None =>
                if decide (value t = text) then
                  run_loop (error c "Current tag was opened again" text) queue
                else
                  let c := error c ("This does not belong after " +:+ value t +:+ " tag") text in
                  run_loop (with_stack c (recover (structure c) text (pop (stack c)))) queue
            end
          else
            first ← Py.get text 0;
            if Ascii.eqb first "<" then
              let c := error c "Found tag instead of value" text in
              run_loop (with_stack c (recover (structure c) text (pop (stack c)))) queue
            else
              c ← set_value c (value t) text;
              match queue with
              | [] => Ok c
              | closing_tag :: queue =>
                  let c := count_string c in
                  if decide (closing_tag = closing) then
                    run_loop (with_stack c (pop (stack c))) queue
                  else
                    let c := error c ("Not a proper closing tag to " +:+ value t) closing_tag in
                    run_loop (with_stack c (pop (stack c))) queue
              end
      | None =>
          if decide (text = value (structure c)) then
            run_loop (new_object (with_stack c (push (stack c) (structure c)))) queue
          else
            run_loop (error c ("Found text before " +:+ value (structure c) +:+
                               " tag was opened") text) queue
      end
  end.

(** One field group of [convert]: what the three [get_value] calls of a
    round of the loop [while index != -1] return. *)
Inductive group :=
  | NoGroup
  | Group (f_name f_type f_value : option string) (index : Z).

Definition read_group (xml_object : XMLObject.t) (index : Z) : result group :=
  '(f_name, index) ← XMLObject.get_value xml_object "<name>" (index + 1);
  if decide (index = -1) then Ok NoGroup
  else
    '(f_type, index) ← XMLObject.get_value xml_object "<type>" (index + 1);
    '(f_value, index) ← XMLObject.get_value xml_object "<value>" (index + 1);
    Ok (Group f_name f_type f_value index).

(** The serializer's state: the converter, the lines put on [json] and
    [object_names]. *)
Record lines := {
  conv : t;
  json : list string;
  object_names : list string
}.

Definition put_json (l : lines) (line : string) : lines :=
  {| conv := conv l; json := json l ++ [line]; object_names := object_names l |}.

Definition put_obj_error (l : lines) (number : Z) (message : string) : lines :=
  {| conv := obj_error (conv l) number message; json := json l;
     object_names := object_names l |}.

Definition quote_of (f_type : string) : string :=
  if decide (f_type = "string") then Py.dq else EmptyString.

Definition field_line (f_name f_type f_value : string) : string :=
  Py.tab +:+ Py.tab +:+ Py.dq +:+ f_name +:+ Py.dq +:+ ": " +:+
  quote_of f_type +:+ f_value +:+ quote_of f_type +:+ "," +:+ Py.nl.

Definition header_line (object_name : string) : string :=
  Py.tab +:+ " " +:+ Py.dq +:+ object_name +:+ Py.dq +:+ ": {" +:+ Py.nl.

Definition close_line : string := Py.tab +:+ " }," +:+ Py.nl.

(** The loop [while index != -1] of [convert], with the closing line put
    after it; the result is [None] when [fuel] rounds are not enough. *)
Fixpoint fields_loop (fuel : nat) (xml_object : XMLObject.t) (object_number : Z)
    (object_name : string) (index : Z) (correct_object : bool) (l : lines)
    {struct fuel} : option (result lines) :=
  if decide (index = -1) then
    Some (Ok (if correct_object then put_json l close_line else l))
  else
    match fuel with
    | O => None
    | S fuel =>
        match read_group xml_object index with
        | Raise e => Some (Raise e)
        | Ok NoGroup =>
            Some (Ok (if correct_object then put_json l close_line else l))
        | Ok (Group (Some f_name) (Some f_type) (Some f_value) index) =>
            if bool_decide (f_type = "int") && negb (Py.isdigit f_value) then
              fields_loop fuel xml_object object_number object_name index correct_object
                (put_obj_error l object_number
                   ("Field value is not an integer: " +:+ Py.dq +:+ f_value +:+ Py.dq))
            else
              let l :=
                if correct_object then l
                else
                  put_json
                    {| conv := conv l; json := json l;
                       object_names := object_names l ++ [object_name] |}
                    (header_line object_name) in
              fields_loop fuel xml_object object_number object_name index true
                (put_json l (field_line f_name f_type f_value))
        | Ok (Group _ _ _ index) =>
            fields_loop fuel xml_object object_number object_name index correct_object
              (put_obj_error l object_number "Required fields were not filled")
        end
    end.

(** The body of [for xml_object in self.objects]. *)
Definition convert_object (fuel : nat) (xml_object : XMLObject.t)
    (object_number : Z) (l : lines) : option (result lines) :=
  match XMLObject.get_value xml_object "<obj_name>" 0 with
  | Raise e => Some (Raise e)
  | Ok (object_name, index) =>
      match object_name with
      | Some object_name =>
          if decide (object_name ∈ object_names l) then
            Some (Ok (put_obj_error l object_number
                        ("Duplicate object name: " +:+ Py.dq +:+ object_name +:+ Py.dq)))
          else fields_loop fuel xml_object object_number object_name index false l
      | None => Some (Ok (put_obj_error l object_number "Object name was not set"))
      end
  end.

Fixpoint convert_objects (fuel : nat) (objs : list XMLObject.t)
    (object_number : Z) (l : lines) {struct objs} : option (result lines) :=
  match objs with
  | [] => Some (Ok l)
  | xml_object :: objs =>
      let object_number := object_number + 1 in
      match convert_object fuel xml_object object_number l with
      | Some (Ok l) => convert_objects fuel objs object_number l
      | other => other
      end
  end.

(** [convert]: the converter after the call and the lines of [json]. *)
Definition convert (fuel : nat) (c : t) : option (result (t * list string)) :=
  match convert_objects fuel (objects c) 0
          {| conv := c; json := ["{" +:+ Py.nl]; object_names := [] |} with
  | Some (Ok l) => Some (Ok (conv l, json l ++ ["}"]))
  | Some (Raise e) => Some (Raise e)
  | None => None
  end.

Definition no_trailing_comma : list string := ["}"; Py.tab +:+ " }," +:+ Py.nl].

(** The writes of the loop of [flush] and of the line after it. *)
Fixpoint flush_loop (string2 : string) (json : list string) {struct json}
    : list string :=
  match json with
  | [] => [string2]
  | next :: json =>
      let string1 := string2 in
      let string2 := next in
      let string1 :=
        if decide (string2 ∈ no_trailing_comma) then
          Py.remove_char "," (Py.len string1 - 2) string1
        else string1 in
      string1 :: flush_loop string2 json
  end.

(** What [flush] does to the output file, which is taken to be writable. *)
Inductive output :=
  | NotWritten
  | Written (writes : list string).

(** [flush]; [None] is the second [json.get()] waiting for ever on a
    queue of one line. *)
Definition flush (c : t) (json : list string) : option (t * output) :=
  match json with
  | [] => Some (error c "Nothing to write to file" output_filename, NotWritten)
  | [_] => None
  | [_; _] =>
      Some (obj_error c (-1) "Final object: JSON body is empty, nothing to write",
            NotWritten)
  | string1 :: string2 :: json => Some (c, Written (string1 :: flush_loop string2 json))
  end.

(** The text of the file after the writes. *)
Definition file_text (o : output) : option string :=
  match o with
  | NotWritten => None
  | Written writes => Some (foldr String.append EmptyString writes)
  end.

(** The end of [run]: [convert] and [flush] when there are objects. *)
Definition serialize (fuel : nat) (c : t) : option (result (t * output)) :=
  if decide (0 < length (objects c))%nat then
    match convert fuel c with
    | Some (Ok (c, json)) =>
        match flush c json with
        | Some r => Some (Ok r)
        | None => None
        end
    | Some (Raise e) => Some (Raise e)
    | None => None
    end
  else Some (Ok (c, NotWritten)).

(** [run] on the strings of the parser's queue. *)
Definition run (fuel : nat) (c : t) (queue : list string) : option (result (t * output)) :=
  match run_loop c queue with
  | Ok c => serialize fuel c
  | Raise e => Some (Raise e)
  end.

End Converter.

(** The script: the parser, then the converter on what the parser queued.
    The result holds both error streams and what was written.  [fuel]
    bounds the rounds of the field loop of [convert] on one object; the
    lexer gets one round more than the file has characters, which is always
    enough ([parser_run_total]). *)
Definition main (fuel : nat) (file : string)
    : option (result (list string * list string * Converter.output)) :=
  match Parser.run (Parser.init object_tag) file with
  | None => None
  | Some (p, _) =>
      match Converter.run fuel (Converter.init object_tag) (Parser.queue p) with
      | None => None
      | Some (Raise e) => Some (Raise e)
      | Some (Ok (c, out)) =>
          Some (Ok (Parser.error_stream p, Converter.error_stream c, out))
      end
  end.

(** * Vocabulary of the statements *)

Definition starts_with (c : ascii) (t : string) : Prop := String.get 0 t = Some c.

Definition ends_with (c : ascii) (t : string) : Prop :=
  String.get (String.length t - 1) t = Some c.

(** The tags of the childless nodes below a node, left to right: the slots
    one call of [build] appends. *)
Fixpoint leaves (s : XMLStructureNode) : list string :=
  match s with
  | Node v _ _ [] => [v]
  | Node _ _ _ cs => concat (map leaves cs)
  end.

(** The records a converter can hold: built by [XMLObject(_structure)] and
    changed by calls of [set_value] only, whatever these return or raise. *)
Inductive record_reachable (s : XMLStructureNode) : XMLObject.t -> Prop :=
  | reach_init : record_reachable s (XMLObject.init s)
  | reach_set_value o tag v :
      record_reachable s o -> record_reachable s (XMLObject.set_value o tag v).1.1.

(** A value the schema node accepts: no list of allowed values, or a member
    of the list. *)
Definition value_allowed (node : XMLStructureNode) (v : string) : Prop :=
  match allowed_values node with
  | None => True
  | Some allowed => v ∈ allowed
  end.

(** A string the validator takes for a closing tag: longer than two
    characters, with a slash in second place. *)
Definition close_shaped (text : string) : Prop :=
  2 < Py.len text /\ String.get 1 text = Some "/"%char.

(** The recovery search in the words of the specification, from the stack
    left by the first pop to the stack the search ends with: push the child
    at the first node whose children hold the tag; stop without a push on
    the schema root when the text is the root's tag; pop otherwise. *)
Inductive recovery_search (root : XMLStructureNode) (text : string)
    : XMLStructureStack -> XMLStructureStack -> Prop :=
  | search_empty : recovery_search root text [] []
  | search_push t below child :
      find_child t text = Some child ->
      recovery_search root text (t :: below) (child :: t :: below)
  | search_root t below :
      find_child t text = None -> text = value root -> t = root ->
      recovery_search root text (t :: below) (t :: below)
  | search_pop t below s' :
      find_child t text = None -> ~ (text = value root /\ t = root) ->
      recovery_search root text below s' ->
      recovery_search root text (t :: below) s'.

(** The field groups of a record of the bundled schema.  Its slots are the
    name of the object followed by groups of three, name, type and value,
    with one more slot for the name of the object wherever [set_value]
    cloned the slots of ["<object>"]; [slots_shaped ts vs gs] reads the
    groups [gs] off the tags [ts] and the values [vs] that follow the first
    slot. *)
Definition group : Type := option string * option string * option string.

Inductive slots_shaped : list string -> list (option string) -> list group -> Prop :=
  | shaped_nil : slots_shaped [] [] []
  | shaped_group f_name f_type f_value ts vs gs :
      slots_shaped ts vs gs ->
      slots_shaped ("<name>" :: "<type>" :: "<value>" :: ts)
                   (f_name :: f_type :: f_value :: vs)
                   ((f_name, f_type, f_value) :: gs)
  | shaped_obj_name x ts vs gs :
      slots_shaped ts vs gs ->
      slots_shaped ("<obj_name>" :: ts) (x :: vs) gs.

Definition record_shaped (o : XMLObject.t) (name : option string) (gs : list group) : Prop :=
  exists ts vs,
    XMLObject.tags o = "<obj_name>" :: ts /\
    XMLObject.values o = name :: vs /\
    slots_shaped ts vs gs.

(** What a field group contributes to the output: its line when the three
    values are set and an [int] value is made of digits, one diagnostic
    otherwise. *)
Definition int_not_digits (f_type f_value : string) : bool :=
  bool_decide (f_type = "int") && negb (Py.isdigit f_value).

Definition group_lines (g : group) : list string :=
  match g with
  | (Some f_name, Some f_type, Some f_value) =>
      if int_not_digits f_type f_value then []
      else [Converter.field_line f_name f_type f_value]
  | _ => []
  end.

Definition group_errors (number : Z) (g : group) : list string :=
  match g with
  | (Some f_name, Some f_type, Some f_value) =>
      if int_not_digits f_type f_value then
        [Converter.obj_error_line number
           ("Field value is not an integer: " +:+ Py.dq +:+ f_value +:+ Py.dq)]
      else []
  | _ => [Converter.obj_error_line number "Required fields were not filled"]
  end.

(** The lines of one object: nothing when no group gives a line. *)
Definition entry_lines (name : string) (gs : list group) : list string :=
  match concat (map group_lines gs) with
  | [] => []
  | body => Converter.header_line name :: body ++ [Converter.close_line]
  end.

(** The serializer's state after the field loop has gone through the groups
    [gs]: one diagnostic for every group without a line, the lines of the
    groups with the closing line, after the header when the object was not
    open yet, and the name of the object recorded when the header is put. *)
Definition fields_result (number : Z) (name : string) (gs : list group)
    (correct_object : bool) (l : Converter.lines) : Converter.lines :=
  let body := concat (map group_lines gs) in
  {| Converter.conv :=
       foldl Converter.put_error (Converter.conv l)
         (concat (map (group_errors number) gs));
     Converter.json :=
       Converter.json l ++
       (if correct_object then body ++ [Converter.close_line] else entry_lines name gs);
     Converter.object_names :=
       Converter.object_names l ++
       (if correct_object then []
        else match body with [] => [] | _ => [name] end) |}.

(** A top-level instance of the bundled schema as the input spells it: the
    name of the object and its fields, each a name, a type and a value. *)
Definition field : Type := string * string * string.
Definition instance : Type := string * list field.

Definition field_group (f : field) : group := (Some f.1.1, Some f.1.2, Some f.2).

Definition triple : list string := ["<name>"; "<type>"; "<value>"].

(** The record the validator completes for an instance: the first group of
    slots comes with the record, one more group with every further field. *)
Definition record_of (i : instance) : XMLObject.t :=
  {| XMLObject.structure := object_tag;
     XMLObject.tags :=
       "<obj_name>" ::
       match i.2 with
       | [] => triple
       | fields => concat (map (fun _ => triple) fields)
       end;
     XMLObject.values :=
       Some i.1 ::
       match i.2 with
       | [] => [None; None; None]
       | fields =>
           concat (map (fun f : field => [Some f.1.1; Some f.1.2; Some f.2]) fields)
       end |}.

(** The serializer's state when [convert] reaches its first object. *)
Definition first_lines (c : Converter.t) : Converter.lines :=
  {| Converter.conv := c; Converter.json := ["{" +:+ Py.nl];
     Converter.object_names := [] |}.

(** A record that gives no entry: its name is not set, or none of its
    groups gives a line. *)
Definition record_without_entry (fuel : nat) (o : XMLObject.t) : Prop :=
  exists name gs,
    record_shaped o name gs /\ (length gs < fuel)%nat /\
    (name = None \/ concat (map group_lines gs) = []).

Definition nothing_to_write : string :=
  "Final object: JSON body is empty, nothing to write" +:+ Py.nl.

(** The lines that close a block of the output, as they are written: the
    end of the document and the end of an object, with or without the
    separator that follows it. *)
Definition closing_line (s : string) : Prop :=
  s = "}" \/ s = Py.tab +:+ " }," +:+ Py.nl \/ s = Py.tab +:+ " }" +:+ Py.nl.

(** A line that ends with the separator. *)
Definition trailing_separator (s : string) : Prop :=
  exists body, s = body +:+ "," +:+ Py.nl.

(** No write that is followed by a closing line ends with the separator. *)
Fixpoint no_trailing_separator (writes : list string) : Prop :=
  match writes with
  | a :: (b :: _) as rest =>
      (closing_line b -> ~ trailing_separator a) /\ no_trailing_separator rest
  | _ => True
  end.

(** The lines [convert] puts between the first and the last. *)
Inductive body_line : string -> Prop :=
  | body_header name : body_line (Converter.header_line name)
  | body_field f_name f_type f_value :
      body_line (Converter.field_line f_name f_type f_value)
  | body_close : body_line Converter.close_line.

(** How often a character occurs in a string. *)
Fixpoint count_char (c : ascii) (s : string) : nat :=
  match s with
  | EmptyString => 0
  | String x s' => (if Ascii.eqb x c then 1 else 0) + count_char c s'
  end.

(** A value the lexer forwards and the validator takes for a value: not
    empty, printable, free of the illegal characters, and not shaped like a
    closing tag. *)
Definition legal_value (v : string) : Prop :=
  v <> EmptyString /\
  Py.any_char (fun c => Py.char_in c Parser.illegal_characters) v = false /\
  Py.isprintable v = true /\
  ~ close_shaped v.

Definition valid_field (f : field) : Prop :=
  legal_value f.1.1 /\ legal_value f.2 /\
  ((f.1.2 = "int" /\ Py.isdigit f.2 = true) \/ f.1.2 = "string").

Definition valid_instance (i : instance) : Prop :=
  legal_value i.1 /\ i.2 <> [] /\ Forall valid_field i.2.

(** The strings the lexer queues for a well-formed instance. *)
Definition field_tokens (f : field) : list string :=
  ["<field>"; "<name>"; f.1.1; "</name>"; "<type>"; f.1.2; "</type>";
   "<value>"; f.2; "</value>"; "</field>"].

Definition instance_tokens (i : instance) : list string :=
  ["<object>"; "<obj_name>"; i.1; "</obj_name>"] ++
  concat (map field_tokens i.2) ++ ["</object>"].

Definition doc_tokens (doc : list instance) : list string :=
  concat (map instance_tokens doc).

(** A record of the bundled schema seen at its last group of slots. *)
Definition slots (pre : list string) (prev : list (option string))
    (a b c : option string) : XMLObject.t :=
  {| XMLObject.structure := object_tag;
     XMLObject.tags := pre ++ triple;
     XMLObject.values := prev ++ [a; b; c] |}.

(** A converter of the bundled schema that has reported nothing. *)
Definition quiet (n : Z) (stk : XMLStructureStack) (cur : XMLObject.t)
    (closed : list XMLObject.t) (k : nat) : Converter.t :=
  {| Converter.stack := stk; Converter.error_stream := [];
     Converter.string_counter := n; Converter.structure := object_tag;
     Converter.current_object := cur;
     Converter.closed_objects := closed; Converter.current_appended := k |}.

(** The lines [convert] puts on [json] for a well-formed instance. *)
Definition instance_lines (i : instance) : list string :=
  Converter.header_line i.1 ::
  map (fun f : field => Converter.field_line f.1.1 f.1.2 f.2) i.2 ++
  [Converter.close_line].

(** The writes of [flush] for well-formed instances: the lines of [convert]
    without the separator after the last field of an object and after the
    last object. *)
Definition comma_free (s : string) : Prop := Py.char_in "," s = false.

Definition written_field (last : bool) (f : field) : string :=
  Py.tab +:+ Py.tab +:+ Py.dq +:+ f.1.1 +:+ Py.dq +:+ ": " +:+
  Converter.quote_of f.1.2 +:+ f.2 +:+ Converter.quote_of f.1.2 +:+
  (if last then Py.nl else "," +:+ Py.nl).

Fixpoint written_fields (fs : list field) : list string :=
  match fs with
  | [] => []
  | f :: fs' =>
      match fs' with
      | [] => [written_field true f]
      | _ => written_field false f :: written_fields fs'
      end
  end.

Definition written_close (last : bool) : string :=
  if last then Py.tab +:+ " }" +:+ Py.nl else Converter.close_line.

Definition written_instance (last : bool) (i : instance) : list string :=
  Converter.header_line i.1 :: written_fields i.2 ++ [written_close last].

Fixpoint written_instances (doc : list instance) : list string :=
  match doc with
  | [] => []
  | i :: doc' =>
      match doc' with
      | [] => written_instance true i
      | _ => written_instance false i ++ written_instances doc'
      end
  end.

Definition written (doc : list instance) : list string :=
  ("{" +:+ Py.nl) :: written_instances doc ++ ["}"].

(** The name and the value of the last field of an instance hold no comma. *)
Definition last_field_comma_free (i : instance) : Prop :=
  match last i.2 with
  | Some f => comma_free f.1.1 /\ comma_free f.2
  | None => True
  end.

(** White space between tags. *)
Definition blank (g : string) : Prop := Py.strip_nonempty g = false.

(** A tag as the lexer reads it: from ["<"] to the first [">"]. *)
Definition tag_shaped (t : string) : Prop :=
  exists body, t = String "<" (body +:+ ">") /\ Py.char_in ">" body = false.

(** A tag of the schema, or the matching form of one. *)
Definition known_tag (vt ot : list string) (t : string) : Prop :=
  t ∈ vt \/ t ∈ ot \/ exists m, matching_tag t = Ok m /\ (m ∈ vt \/ m ∈ ot).

(** [spells vt ot tokens text]: the text is the strings [tokens] written
    one after the other, with white space allowed before every tag but the
    one that ends a value, and at the end; [vt] are the tags that are followed
    by a value, [ot] the other tags of the schema. *)
Inductive spells (vt ot : list string) : list string -> string -> Prop :=
  | spells_end g :
      blank g -> spells vt ot [] g
  | spells_tag g t tokens text :
      blank g -> tag_shaped t -> t ∉ vt -> known_tag vt ot t ->
      spells vt ot tokens text ->
      spells vt ot (t :: tokens) (g +:+ t +:+ text)
  | spells_leaf g t v closing tokens text :
      blank g -> tag_shaped t -> t ∈ vt -> legal_value v ->
      tag_shaped closing -> closing ∉ vt -> known_tag vt ot closing ->
      spells vt ot tokens text ->
      spells vt ot (t :: v :: closing :: tokens) (g +:+ t +:+ v +:+ closing +:+ text).

(** Two parser states that differ in the character counter only. *)
Definition same_but_counter (p p' : Parser.t) : Prop :=
  Parser.queue p' = Parser.queue p /\
  Parser.error_stream p' = Parser.error_stream p /\
  Parser.value_tags p' = Parser.value_tags p /\
  Parser.other_tags p' = Parser.other_tags p.

(** The text of a document with the same white space [gap] before every
    tag that may have some. *)
Definition field_text (gap : string) (f : field) : string :=
  gap +:+ "<field>" +:+
  gap +:+ "<name>" +:+ f.1.1 +:+ "</name>" +:+
  gap +:+ "<type>" +:+ f.1.2 +:+ "</type>" +:+
  gap +:+ "<value>" +:+ f.2 +:+ "</value>" +:+
  gap +:+ "</field>".

Definition instance_text (gap : string) (i : instance) : string :=
  gap +:+ "<object>" +:+
  gap +:+ "<obj_name>" +:+ i.1 +:+ "</obj_name>" +:+
  foldr (fun f rest => field_text gap f +:+ rest) (gap +:+ "</object>") i.2.

Definition doc_text (gap : string) (doc : list instance) : string :=
  foldr (fun i rest => instance_text gap i +:+ rest) gap doc.

(** The tags of the bundled schema as [Parser.build] sorts them. *)
Definition bundled_value_tags : list string :=
  ["<obj_name>"; "<name>"; "<type>"; "<value>"].

Definition bundled_other_tags : list string := ["<object>"; "<field>"].

(** What the run leaves in the output file for a well-formed document. *)
Definition expected_output (doc : list instance) : Converter.output :=
  match doc with
  | [] => Converter.NotWritten
  | _ => Converter.Written (written doc)
  end.

(** A record of the bundled schema: shaped, with the bundled schema as its
    structure. *)
Definition bundled_record (o : XMLObject.t) : Prop :=
  XMLObject.structure o = object_tag /\ exists name gs, record_shaped o name gs.

(** * Properties *)

(** ** Induction on schema trees *)

Lemma XMLStructureNode_tree_ind (P : XMLStructureNode -> Prop) :
  (forall v r a cs, Forall P cs -> P (Node v r a cs)) ->
  forall n, P n.
Proof.
  intros step. fix IH 1. intros [v r a cs]. apply step.
  induction cs as [|c cs IHcs]; constructor; [apply IH | exact IHcs].
Qed.

Lemma node_eqb_eq a b : node_eqb a b = true <-> a = b.
Proof.
  revert b. induction a as [va ra la ca IH] using XMLStructureNode_tree_ind.
  intros [vb rb lb cb]. simpl.
  rewrite !andb_true_iff, !bool_decide_eq_true.
  assert ((fix children_eqb (l l' : list XMLStructureNode) {struct l} : bool :=
             match l, l' with
             | [], [] => true
             | x :: m, y :: m' => node_eqb x y && children_eqb m m'
             | _, _ => false
             end) ca cb = true <-> ca = cb) as ->.
  { revert cb. induction IH as [|x m Hx _ IHm]; intros [|y m']; try (split; [discriminate|congruence]).
    - tauto.
    - rewrite andb_true_iff, Hx, IHm. split; [intros [-> ->]; reflexivity | intros [= -> ->]; tauto]. }
  split; [intros [[[-> ->] ->] ->]; reflexivity | intros [= -> -> -> ->]; tauto].
Qed.

(** ** matching_tag *)

Lemma matching_tag_open (c : ascii) (r : string) :
  c <> "/"%char -> matching_tag (String "<" (String c r)) = Ok ("</" +:+ String c r).
Proof.
  intros Hc. unfold matching_tag. simpl.
  destruct (Ascii.eqb_spec c "/"); [contradiction | reflexivity].
Qed.

Lemma matching_tag_close (r : string) :
  matching_tag (String "<" (String "/" r)) = Ok (String "<" r).
Proof. reflexivity. Qed.

(** C10, as stated, fails on a tag whose second and third characters are
    both a slash: [matching_tag] turns ["<//>"] into ["</>"] and that into
    ["<>"]. *)
Lemma matching_tag_twice_double_slash :
  (2 <= String.length "<//>")%nat /\ starts_with "<" "<//>" /\ ends_with ">" "<//>" /\
  matching_tag "<//>" ≫= matching_tag = Ok "<>" /\
  matching_tag "<//>" ≫= matching_tag <> Ok "<//>".
Proof. repeat split; try reflexivity; try (simpl; lia); discriminate. Qed.

(** C10 (amended): for every string [t] of length at least two that begins
    with ["<"] and ends with [">"], and whose second and third characters are
    not both a slash, applying [matching_tag] twice returns [t]. *)
Theorem matching_tag_involutive (t : string) :
  (2 <= String.length t)%nat ->
  starts_with "<" t ->
  ends_with ">" t ->
  ~ (String.get 1 t = Some "/"%char /\ String.get 2 t = Some "/"%char) ->
  matching_tag t ≫= matching_tag = Ok t.
Proof.
  unfold starts_with, ends_with.
  destruct t as [|c0 [|c1 r]]; simpl; try lia.
  intros _ [= ->] Hend Hslash.
  destruct (Ascii.eqb_spec c1 "/") as [-> | Hc1].
  - rewrite matching_tag_close. simpl.
    destruct r as [|c2 r]; [discriminate Hend |].
    rewrite matching_tag_open; [reflexivity |].
    intros ->. apply Hslash. split; reflexivity.
  - rewrite matching_tag_open by assumption. reflexivity.
Qed.

Lemma matching_tag_involutive_witness :
  (2 <= String.length "</field>")%nat /\ starts_with "<" "</field>" /\
  ends_with ">" "</field>" /\
  matching_tag "</field>" ≫= matching_tag = Ok "</field>".
Proof.
  assert (H2 : (2 <= String.length "</field>")%nat) by (simpl; lia).
  assert (Hs : starts_with "<" "</field>") by reflexivity.
  assert (He : ends_with ">" "</field>") by reflexivity.
  split; [exact H2 |]. split; [exact Hs |]. split; [exact He |].
  apply (matching_tag_involutive "</field>" H2 Hs He).
  intros [_ H]. discriminate H.
Defined.

(** ** Parser.error *)

Lemma error_number_late (n : Z) (message t : string) :
  Py.len message <= n -> Parser.error_number n message t = n - Py.len t.
Proof.
  intros H. unfold Parser.error_number.
  destruct (Z.ltb_spec n (Py.len message)); [lia | reflexivity].
Qed.

Lemma error_number_early (n : Z) (message t : string) :
  n < Py.len message -> Parser.error_number n message t = 0.
Proof.
  intros H. unfold Parser.error_number.
  destruct (Z.ltb_spec n (Py.len message)); [reflexivity | lia].
Qed.

(** C8: on the file [" <x>"] the lexer reports the unknown tag ["<x>"] after
    four characters have been read, so the offset of the claim is [4 - 3 = 1];
    [error] compares the counter with the length of the message, nineteen
    characters, and prints [0]. *)
Theorem parser_error_offset_short_file :
  exists p,
    Parser.run (Parser.init object_tag) " <x>" = Some (p, Ok ()) /\
    Parser.char_counter p = 4 /\
    Parser.char_counter p - Py.len "<x>" = 1 /\
    Parser.error_number (Parser.char_counter p) "Found incorrect tag" "<x>" = 0 /\
    Parser.error_stream p =
      ["Char 0: Found incorrect tag: " +:+ Py.dq +:+ "<x>" +:+ Py.dq +:+ Py.nl].
Proof. eexists. vm_compute. repeat split. Qed.

(** ** XMLObject.build *)

Lemma build_slots_leaves (s : XMLStructureNode) :
  forall acc,
    XMLObject.build_slots s acc =
    (acc.1 ++ leaves s, acc.2 ++ replicate (length (leaves s)) None).
Proof.
  induction s as [v r a cs IH] using XMLStructureNode_tree_ind.
  intros acc. destruct cs as [|c cs]; [reflexivity |].
  change (XMLObject.build_slots (Node v r a (c :: cs)) acc) with
    ((fix each (l : list XMLStructureNode) acc {struct l} :=
        match l with
        | [] => acc
        | child :: l' => each l' (XMLObject.build_slots child acc)
        end) (c :: cs) acc).
  change (leaves (Node v r a (c :: cs))) with (concat (map leaves (c :: cs))).
  revert acc. induction IH as [|x l Hx _ IHl]; intros acc.
  - simpl. rewrite !app_nil_r. destruct acc; reflexivity.
  - rewrite IHl, Hx. simpl.
    rewrite length_app, replicate_add, !app_assoc. reflexivity.
Qed.

Lemma build_tags_values (o : XMLObject.t) (s : XMLStructureNode) :
  XMLObject.tags (XMLObject.build o s) = XMLObject.tags o ++ leaves s /\
  XMLObject.values (XMLObject.build o s) =
    XMLObject.values o ++ replicate (length (leaves s)) None /\
  XMLObject.structure (XMLObject.build o s) = XMLObject.structure o.
Proof. unfold XMLObject.build. rewrite build_slots_leaves. simpl. auto. Qed.

Lemma build_same_length (o : XMLObject.t) (s : XMLStructureNode) :
  length (XMLObject.tags o) = length (XMLObject.values o) ->
  length (XMLObject.tags (XMLObject.build o s)) =
  length (XMLObject.values (XMLObject.build o s)).
Proof.
  intros H. destruct (build_tags_values o s) as (-> & -> & _).
  rewrite !length_app, length_replicate. lia.
Qed.

Lemma store_value_same_length o index node tag v :
  length (XMLObject.tags o) = length (XMLObject.values o) ->
  length (XMLObject.tags (XMLObject.store_value o index node tag v).1.1) =
  length (XMLObject.values (XMLObject.store_value o index node tag v).1.1).
Proof.
  intros H. unfold XMLObject.store_value.
  destruct node as [[n par]|]; [| exact H].
  destruct (allowed_values n) as [allowed|];
    repeat case_decide; simpl; rewrite ?length_insert; exact H.
Qed.

Lemma set_value_same_length o tag v :
  length (XMLObject.tags o) = length (XMLObject.values o) ->
  length (XMLObject.tags (XMLObject.set_value o tag v).1.1) =
  length (XMLObject.values (XMLObject.set_value o tag v).1.1).
Proof.
  intros H. unfold XMLObject.set_value.
  destruct (last_index (XMLObject.tags o) tag) as [index|e]; [| exact H].
  destruct (XMLObject.values o !! index) as [[old|]|]; [| | exact H].
  - destruct (XMLObject.tag_to_node None (XMLObject.structure o) tag)
      as [[n [par|]]|]; try exact H.
    destruct (repeatable par); [| exact H].
    pose proof (build_same_length o par H) as Hb.
    destruct (last_index (XMLObject.tags (XMLObject.build o par)) tag); [| exact Hb].
    apply store_value_same_length, Hb.
  - apply store_value_same_length, H.
Qed.

(** C9: the tags and the values of a record have the same length after its
    construction and after every call of [set_value], also after a call that
    clones the slots of a repeatable node, reports an error or raises. *)
Theorem tags_values_same_length (s : XMLStructureNode) (o : XMLObject.t) :
  record_reachable s o ->
  length (XMLObject.tags o) = length (XMLObject.values o).
Proof.
  induction 1 as [|o tag v _ IH].
  - unfold XMLObject.init. apply build_same_length. reflexivity.
  - apply set_value_same_length, IH.
Qed.

Lemma tags_values_same_length_witness :
  let o1 := (XMLObject.set_value (XMLObject.init object_tag) "<type>" "int").1.1 in
  let o2 := (XMLObject.set_value o1 "<type>" "float").1.1 in
  record_reachable object_tag o2 /\
  length (XMLObject.tags o2) = 7%nat /\
  length (XMLObject.tags o2) = length (XMLObject.values o2).
Proof.
  intros o1 o2.
  assert (H : record_reachable object_tag o2)
    by (apply reach_set_value, reach_set_value, reach_init).
  split; [exact H |]. split; [reflexivity |].
  apply (tags_values_same_length object_tag o2 H).
Defined.

(** ** last_index *)

Lemma index_of_lookup (l : list string) v i :
  index_of l v = Ok i -> l !! i = Some v /\ forall k, (k < i)%nat -> l !! k <> Some v.
Proof.
  revert i. induction l as [|x l IH]; intros i; simpl; [discriminate |].
  case_decide as Hx.
  - intros [= <-]. subst. split; [reflexivity | lia].
  - destruct (index_of l v) as [i'|] eqn:Hi; simpl; [| discriminate].
    intros [= <-]. destruct (IH i' eq_refl) as [Hl Hk]. split; [exact Hl |].
    intros [|k] Hlt; simpl; [congruence | apply Hk; lia].
Qed.

Lemma index_of_elem (l : list string) v :
  v ∈ l -> exists i, index_of l v = Ok i /\ (i < length l)%nat.
Proof.
  induction l as [|x l IH]; [intros H; inversion H |].
  intros H. simpl. case_decide as Hx.
  - exists 0%nat. split; [reflexivity | simpl; lia].
  - apply elem_of_cons in H as [-> | H]; [contradiction |].
    destruct (IH H) as (i & -> & Hi).
    exists (S i). split; [reflexivity | simpl; lia].
Qed.

Lemma index_of_app_l (l1 l2 : list string) v i :
  index_of l1 v = Ok i -> index_of (l1 ++ l2) v = Ok i.
Proof.
  revert i. induction l1 as [|x l1 IH]; intros i; simpl; [discriminate |].
  case_decide; [tauto |].
  destruct (index_of l1 v) as [i'|]; simpl; [| discriminate].
  rewrite (IH i' eq_refl). tauto.
Qed.

Lemma last_index_lookup (l : list string) v i :
  last_index l v = Ok i ->
  (i < length l)%nat /\ l !! i = Some v /\ forall k, (i < k)%nat -> l !! k <> Some v.
Proof.
  unfold last_index.
  destruct (index_of (reverse l) v) as [r|] eqn:Hr; simpl; [| discriminate].
  intros [= <-]. destruct (index_of_lookup _ _ _ Hr) as [Hl Hk].
  assert (r < length l)%nat as Hlt
    by (rewrite <- (length_reverse l); eapply lookup_lt_Some, Hl).
  rewrite reverse_lookup in Hl by exact Hlt.
  split; [lia |]. split; [rewrite <- Hl; f_equal; lia |].
  intros k Hik Hv.
  destruct (decide (k < length l)%nat) as [Hkl|Hkl];
    [| apply lookup_lt_Some in Hv; lia].
  apply (Hk (length l - S k)%nat); [lia |].
  rewrite reverse_lookup by lia. rewrite <- Hv. f_equal. lia.
Qed.

Lemma last_index_app_r (l l' : list string) v :
  v ∈ l' ->
  exists j, last_index (l ++ l') v = Ok j /\
            (length l <= j < length l + length l')%nat.
Proof.
  intros Hv. apply elem_of_reverse in Hv.
  destruct (index_of_elem _ _ Hv) as (i & Hi & Hlt).
  rewrite length_reverse in Hlt.
  unfold last_index. rewrite reverse_app, (index_of_app_l _ _ _ _ Hi). simpl.
  eexists. split; [reflexivity |]. rewrite length_app. lia.
Qed.

(** ** XMLObject.tag_to_node and set_value *)

Lemma tag_to_node_found par s tag node q :
  XMLObject.tag_to_node par s tag = Some (node, q) ->
  value node = tag /\
  ((node = s /\ q = par) \/ exists p, q = Some p /\ node ∈ children p).
Proof.
  revert par. induction s as [v r a cs IH] using XMLStructureNode_tree_ind.
  intros par. simpl. case_decide as Hv.
  - intros [= <- <-]. split; [exact Hv | left; tauto].
  - intros H. enough (value node = tag /\ exists p, q = Some p /\ node ∈ children p)
      by tauto.
    set (self := Node v r a cs) in *.
    assert (forall c, c ∈ cs -> c ∈ children self) as Hsub by (intros c Hc; exact Hc).
    clearbody self. clear Hv.
    induction IH as [|c l Hc _ IHl]; [discriminate |].
    destruct (XMLObject.tag_to_node (Some self) c tag) as [[n' q']|] eqn:Hc'.
    + injection H as -> ->. destruct (Hc _ Hc') as [Hval [[-> ->] | Hin]].
      * split; [exact Hval |]. exists self. split; [reflexivity |].
        apply Hsub. left.
      * tauto.
    + apply IHl; [exact H |]. intros c0 Hc0. apply Hsub. right. exact Hc0.
Qed.

Lemma leaf_child_in_leaves (p node : XMLStructureNode) :
  node ∈ children p -> children node = [] -> value node ∈ leaves p.
Proof.
  intros Hin Hleaf. destruct p as [v r a cs]. simpl in Hin.
  destruct cs as [|c cs]; [inversion Hin |].
  change (leaves (Node v r a (c :: cs))) with (concat (map leaves (c :: cs))).
  apply list_elem_of_In, in_concat. exists (leaves node). split.
  - apply in_map, list_elem_of_In, Hin.
  - destruct node as [vn rn an cn]. simpl in *. subst cn. left. reflexivity.
Qed.

Lemma store_value_allowed o index node par tag v :
  (index < length (XMLObject.values o))%nat ->
  value_allowed node v ->
  XMLObject.store_value o index (Some (node, par)) tag v =
  ({| XMLObject.structure := XMLObject.structure o;
      XMLObject.tags := XMLObject.tags o;
      XMLObject.values := <[index := Some v]> (XMLObject.values o) |}, [], Ok true).
Proof.
  intros Hlt Hal. unfold XMLObject.store_value, value_allowed in *.
  destruct (allowed_values node); repeat case_decide; try reflexivity; tauto.
Qed.




(** ** The recovery search of Converter.run *)

Lemma recover_search (root : XMLStructureNode) (text : string) (s : XMLStructureStack) :
  recovery_search root text s (Converter.recover root text s).
Proof.
  induction s as [|t below IH]; simpl; [constructor |].
  destruct (find_child t text) as [child|] eqn:Hchild; [constructor; exact Hchild |].
  destruct (bool_decide (text = value root) && node_eqb t root) eqn:Hroot.
  - apply andb_true_iff in Hroot as [Htext Ht].
    apply bool_decide_eq_true in Htext. apply node_eqb_eq in Ht.
    apply search_root; assumption.
  - apply search_pop; [exact Hchild | | exact IH].
    intros [Htext Ht]. apply andb_false_iff in Hroot as [Hroot | Hroot].
    + apply bool_decide_eq_false in Hroot. contradiction.
    + apply node_eqb_eq in Ht. congruence.
Qed.

Lemma not_close_shaped (text : string) :
  ~ close_shaped text ->
  (2 <? Py.len text) && bool_decide (String.get 1 text = Some "/"%char) = false.
Proof.
  intros H. apply not_true_is_false. intros Htrue. apply H.
  apply andb_true_iff in Htrue as [H2 Hs].
  apply Z.ltb_lt in H2. apply bool_decide_eq_true in Hs. split; assumption.
Qed.




(** ** XMLObject.get_value *)

Lemma index_from_start_irrelevant (l : list string) v s1 s2 pos :
  (s1 <= pos)%nat -> (s2 <= pos)%nat ->
  XMLObject.index_from l v s1 pos = XMLObject.index_from l v s2 pos.
Proof.
  revert pos. induction l as [|x l IH]; intros pos H1 H2; simpl; [reflexivity |].
  repeat case_decide; try lia; try reflexivity. apply IH; lia.
Qed.

Lemma index_from_drop (l : list string) v start pos :
  (pos <= start)%nat ->
  XMLObject.index_from l v start pos =
  XMLObject.index_from (drop (start - pos) l) v start start.
Proof.
  revert pos. induction l as [|x l IH]; intros pos Hle.
  - rewrite drop_nil. reflexivity.
  - destruct (decide (pos = start)) as [-> | Hne].
    + rewrite Nat.sub_diag. reflexivity.
    + simpl. rewrite decide_False by lia. rewrite IH by lia.
      replace (start - pos)%nat with (S (start - S pos)) by lia. reflexivity.
Qed.

Lemma list_index_nat (l : list string) v (n : nat) :
  XMLObject.list_index l v (Z.of_nat n) =
  XMLObject.index_from (drop n l) v n n.
Proof.
  unfold XMLObject.list_index.
  destruct (Z.ltb_spec (Z.of_nat n) 0); [lia |].
  rewrite Nat2Z.id, index_from_drop by lia. rewrite Nat.sub_0_r. reflexivity.
Qed.

Lemma get_value_here (o : XMLObject.t) tag (n : nat) v :
  XMLObject.tags o !! n = Some tag ->
  XMLObject.values o !! n = Some v ->
  XMLObject.get_value o tag (Z.of_nat n) = Ok (v, Z.of_nat n).
Proof.
  intros Ht Hv. unfold XMLObject.get_value.
  pose proof (lookup_lt_Some _ _ _ Ht) as Hlt.
  destruct (Z.leb_spec (Z.of_nat (length (XMLObject.tags o))) (Z.of_nat n)); [lia |].
  rewrite list_index_nat, (drop_S _ _ _ Ht). simpl.
  rewrite decide_True by lia. rewrite decide_True by reflexivity.
  rewrite Hv. reflexivity.
Qed.

Lemma get_value_skip (o : XMLObject.t) tag (n : nat) x :
  XMLObject.tags o !! n = Some x ->
  x <> tag ->
  XMLObject.get_value o tag (Z.of_nat n) = XMLObject.get_value o tag (Z.of_nat (S n)).
Proof.
  intros Ht Hx. unfold XMLObject.get_value.
  pose proof (lookup_lt_Some _ _ _ Ht) as Hlt.
  destruct (Z.leb_spec (Z.of_nat (length (XMLObject.tags o))) (Z.of_nat n)); [lia |].
  rewrite !list_index_nat, (drop_S _ _ _ Ht). simpl.
  rewrite decide_True by lia. rewrite decide_False by exact Hx.
  rewrite (index_from_start_irrelevant _ _ n (S n)) by lia.
  destruct (Z.leb_spec (Z.of_nat (length (XMLObject.tags o))) (Z.of_nat (S n)));
    [| reflexivity].
  rewrite drop_ge by lia. reflexivity.
Qed.

Lemma get_value_end (o : XMLObject.t) tag (start : Z) :
  Z.of_nat (length (XMLObject.tags o)) <= start ->
  XMLObject.get_value o tag start = Ok (None, -1).
Proof.
  intros H. unfold XMLObject.get_value.
  destruct (Z.leb_spec (Z.of_nat (length (XMLObject.tags o))) start); [reflexivity | lia].
Qed.

(** ** Converter.convert on the records of the bundled schema *)

Lemma read_group_shaped (o : XMLObject.t) ts vs gs :
  slots_shaped ts vs gs ->
  forall pre_t pre_v,
    XMLObject.tags o = pre_t ++ ts ->
    XMLObject.values o = pre_v ++ vs ->
    length pre_t = length pre_v ->
    match gs with
    | [] => Converter.read_group o (Z.of_nat (length pre_t) - 1) = Ok Converter.NoGroup
    | (f_name, f_type, f_value) :: gs' =>
        exists pre_t' pre_v' ts' vs',
          Converter.read_group o (Z.of_nat (length pre_t) - 1) =
            Ok (Converter.Group f_name f_type f_value (Z.of_nat (length pre_t') - 1)) /\
          XMLObject.tags o = pre_t' ++ ts' /\
          XMLObject.values o = pre_v' ++ vs' /\
          length pre_t' = length pre_v' /\
          (length pre_t < length pre_t')%nat /\
          slots_shaped ts' vs' gs'
    end.
Proof.
  induction 1 as [|f_name f_type f_value ts vs gs Hs _|x ts vs gs Hs IH];
    intros pre_t pre_v Ht Hv Hlen.
  - unfold Converter.read_group.
    rewrite get_value_end by (rewrite Ht, app_nil_r; lia). reflexivity.
  - exists (pre_t ++ ["<name>"; "<type>"; "<value>"]),
           (pre_v ++ [f_name; f_type; f_value]), ts, vs.
    split; [| rewrite <- !app_assoc; repeat split; try assumption;
              rewrite !length_app; simpl; lia].
    unfold Converter.read_group.
    replace (Z.of_nat (length pre_t) - 1 + 1) with (Z.of_nat (length pre_t)) by lia.
    rewrite (get_value_here o "<name>" (length pre_t) f_name);
      [| rewrite Ht, lookup_app_r, Nat.sub_diag by lia; reflexivity
       | rewrite Hv, lookup_app_r by lia; rewrite Hlen, Nat.sub_diag; reflexivity ].
    simpl. rewrite decide_False by lia.
    replace (Z.of_nat (length pre_t) + 1) with (Z.of_nat (S (length pre_t))) by lia.
    rewrite (get_value_here o "<type>" (S (length pre_t)) f_type);
      [| rewrite Ht, lookup_app_r by lia;
         replace (S (length pre_t) - length pre_t)%nat with 1%nat by lia; reflexivity
       | rewrite Hv, lookup_app_r by lia;
         replace (S (length pre_t) - length pre_v)%nat with 1%nat by lia; reflexivity ].
    simpl.
    replace (Z.of_nat (S (length pre_t)) + 1) with (Z.of_nat (S (S (length pre_t)))) by lia.
    rewrite (get_value_here o "<value>" (S (S (length pre_t))) f_value);
      [| rewrite Ht, lookup_app_r by lia;
         replace (S (S (length pre_t)) - length pre_t)%nat with 2%nat by lia; reflexivity
       | rewrite Hv, lookup_app_r by lia;
         replace (S (S (length pre_t)) - length pre_v)%nat with 2%nat by lia; reflexivity ].
    simpl. do 2 f_equal. rewrite length_app. simpl. lia.
  - specialize (IH (pre_t ++ ["<obj_name>"]) (pre_v ++ [x])).
    rewrite <- !app_assoc in IH. specialize (IH Ht Hv).
    rewrite !length_app in IH. simpl in IH. specialize (IH ltac:(lia)).
    assert (Converter.read_group o (Z.of_nat (length pre_t) - 1) =
            Converter.read_group o (Z.of_nat (length pre_t + 1) - 1)) as Heq.
    { unfold Converter.read_group.
      replace (Z.of_nat (length pre_t) - 1 + 1) with (Z.of_nat (length pre_t)) by lia.
      replace (Z.of_nat (length pre_t + 1) - 1 + 1)
        with (Z.of_nat (S (length pre_t))) by lia.
      rewrite (get_value_skip o "<name>" (length pre_t) "<obj_name>");
        [reflexivity | | discriminate].
      rewrite Ht, lookup_app_r, Nat.sub_diag by lia. reflexivity. }
    rewrite Heq. destruct gs as [|[[f_name f_type] f_value] gs']; [exact IH |].
    destruct IH as (pre_t' & pre_v' & ts' & vs' & H1 & H2 & H3 & H4 & H5 & H6).
    exists pre_t', pre_v', ts', vs'. repeat split; try assumption. lia.
Qed.

Lemma lines_eq (l l' : Converter.lines) :
  Converter.conv l = Converter.conv l' ->
  Converter.json l = Converter.json l' ->
  Converter.object_names l = Converter.object_names l' ->
  l = l'.
Proof. destruct l, l'. simpl. intros -> -> ->. reflexivity. Qed.

Lemma fields_loop_shaped (o : XMLObject.t) (number : Z) (name : string) gs :
  forall fuel correct l ts vs pre_t pre_v,
    slots_shaped ts vs gs ->
    XMLObject.tags o = pre_t ++ ts ->
    XMLObject.values o = pre_v ++ vs ->
    length pre_t = length pre_v ->
    (0 < length pre_t)%nat ->
    (length gs < fuel)%nat ->
    Converter.fields_loop fuel o number name (Z.of_nat (length pre_t) - 1) correct l =
    Some (Ok (fields_result number name gs correct l)).
Proof.
  induction gs as [|[[f_name f_type] f_value] gs IH];
    intros fuel correct l ts vs pre_t pre_v Hs Ht Hv Hlen Hpos Hfuel;
    (destruct fuel as [|fuel]; [simpl in Hfuel; lia |]);
    pose proof (read_group_shaped o ts vs _ Hs pre_t pre_v Ht Hv Hlen) as Hread;
    simpl; rewrite decide_False by lia.
  - rewrite Hread. do 2 f_equal. unfold fields_result. simpl.
    destruct correct; apply lines_eq; simpl; rewrite ?app_nil_r; reflexivity.
  - destruct Hread as (pre_t' & pre_v' & ts' & vs' & -> & Ht' & Hv' & Hlen' & Hpos' & Hs').
    simpl in Hfuel.
    destruct f_name as [f_name|], f_type as [f_type|], f_value as [f_value|];
      try (rewrite (IH fuel _ _ ts' vs' pre_t' pre_v') by (assumption || lia);
           do 2 f_equal; unfold fields_result, entry_lines; simpl;
           apply lines_eq; simpl; try reflexivity;
           rewrite foldl_app; reflexivity).
    fold (int_not_digits f_type f_value).
    destruct (int_not_digits f_type f_value) eqn:Hint.
    + rewrite (IH fuel _ _ ts' vs' pre_t' pre_v') by (assumption || lia).
      do 2 f_equal. unfold fields_result, entry_lines. simpl.
      unfold group_lines, group_errors. rewrite Hint. simpl.
      apply lines_eq; reflexivity.
    + rewrite (IH fuel _ _ ts' vs' pre_t' pre_v') by (assumption || lia).
      do 2 f_equal. unfold fields_result, entry_lines. simpl.
      rewrite Hint. simpl.
      destruct correct; apply lines_eq; simpl; rewrite <- ?app_assoc; try reflexivity;
        rewrite ?app_nil_r; reflexivity.
Qed.

Lemma error_stream_put_errors (c : Converter.t) (errs : list string) :
  Converter.error_stream (foldl Converter.put_error c errs) =
  Converter.error_stream c ++ errs.
Proof.
  revert c. induction errs as [|e errs IH]; intros c; simpl.
  - rewrite app_nil_r. reflexivity.
  - rewrite IH. simpl. rewrite <- app_assoc. reflexivity.
Qed.

Lemma get_name_shaped (o : XMLObject.t) name gs :
  record_shaped o name gs ->
  XMLObject.get_value o "<obj_name>" 0 = Ok (name, 0).
Proof.
  intros (ts & vs & Ht & Hv & _).
  apply (get_value_here o "<obj_name>" 0 name); [rewrite Ht | rewrite Hv]; reflexivity.
Qed.

Lemma convert_object_shaped (o : XMLObject.t) (name : string) gs fuel number l :
  record_shaped o (Some name) gs ->
  name ∉ Converter.object_names l ->
  (length gs < fuel)%nat ->
  Converter.convert_object fuel o number l =
  Some (Ok (fields_result number name gs false l)).
Proof.
  intros Hshaped Hnew Hfuel. unfold Converter.convert_object.
  rewrite (get_name_shaped o _ _ Hshaped).
  rewrite decide_False by exact Hnew.
  destruct Hshaped as (ts & vs & Ht & Hv & Hs).
  apply (fields_loop_shaped o number name gs fuel false l ts vs
           ["<obj_name>"] [Some name]); try assumption; simpl; lia.
Qed.

Lemma convert_object_unnamed (o : XMLObject.t) gs fuel number l :
  record_shaped o None gs ->
  Converter.convert_object fuel o number l =
  Some (Ok (Converter.put_obj_error l number "Object name was not set")).
Proof.
  intros Hshaped. unfold Converter.convert_object.
  rewrite (get_name_shaped o _ _ Hshaped). reflexivity.
Qed.

Lemma convert_object_duplicate (o : XMLObject.t) (name : string) i fuel number l :
  XMLObject.get_value o "<obj_name>" 0 = Ok (Some name, i) ->
  name ∈ Converter.object_names l ->
  Converter.convert_object fuel o number l =
  Some (Ok (Converter.put_obj_error l number
              ("Duplicate object name: " +:+ Py.dq +:+ name +:+ Py.dq))).
Proof.
  intros Hname Hin. unfold Converter.convert_object.
  rewrite Hname. rewrite decide_True by exact Hin. reflexivity.
Qed.

Lemma isdigit_some_char (s : string) :
  Py.any_char (fun c => negb (Py.isdigit_char c)) s = true -> Py.isdigit s = false.
Proof.
  intros H. destruct s as [|c s]; [discriminate |].
  unfold Py.isdigit. remember (String c s) as t. clear Heqt.
  induction t as [|x t IH]; [discriminate |]. simpl in *.
  destruct (Py.isdigit_char x); simpl in *; [apply IH, H | reflexivity].
Qed.

Lemma entry_lines_without (name : string) gs1 g gs2 :
  group_lines g = [] ->
  entry_lines name (gs1 ++ g :: gs2) = entry_lines name (gs1 ++ gs2).
Proof.
  intros Hg. unfold entry_lines.
  rewrite !map_app, !concat_app. simpl. rewrite Hg. reflexivity.
Qed.




(** ** Converter.convert on any records *)

Lemma fields_loop_grows (o : XMLObject.t) (number : Z) (name : string) (fuel : nat) :
  forall index correct l l',
    Converter.fields_loop fuel o number name index correct l = Some (Ok l') ->
    (exists more, Converter.json l' = Converter.json l ++ more) /\
    (exists more, Converter.object_names l' = Converter.object_names l ++ more) /\
    (correct = false -> Converter.json l' <> Converter.json l ->
     name ∈ Converter.object_names l' /\ Converter.header_line name ∈ Converter.json l').
Proof.
  assert (Hend : forall (correct : bool) l l',
    Some (Ok (if correct then Converter.put_json l Converter.close_line else l)) =
      Some (Ok l') ->
    (exists more, Converter.json l' = Converter.json l ++ more) /\
    (exists more, Converter.object_names l' = Converter.object_names l ++ more) /\
    (correct = false -> Converter.json l' <> Converter.json l ->
     name ∈ Converter.object_names l' /\ Converter.header_line name ∈ Converter.json l')).
  { intros [|] l l' [= <-]; simpl.
    - split; [eexists; reflexivity |]. split; [exists []; rewrite app_nil_r; reflexivity |].
      discriminate.
    - split; [exists []; rewrite app_nil_r; reflexivity |].
      split; [exists []; rewrite app_nil_r; reflexivity |]. intros _ H. contradiction. }
  induction fuel as [|fuel IH]; intros index correct l l'; simpl;
    (case_decide; [apply Hend |]); [discriminate |].
  destruct (Converter.read_group o index) as [[|f_name f_type f_value index']|e];
    [apply Hend | | discriminate].
  assert (Hskip : forall message,
    Converter.fields_loop fuel o number name index' correct
      (Converter.put_obj_error l number message) = Some (Ok l') ->
    (exists more, Converter.json l' = Converter.json l ++ more) /\
    (exists more, Converter.object_names l' = Converter.object_names l ++ more) /\
    (correct = false -> Converter.json l' <> Converter.json l ->
     name ∈ Converter.object_names l' /\ Converter.header_line name ∈ Converter.json l')).
  { intros message Hrun. exact (IH _ _ _ _ Hrun). }
  destruct f_name as [f_name|], f_type as [f_type|], f_value as [f_value|];
    try apply Hskip.
  destruct (bool_decide (f_type = "int") && negb (Py.isdigit f_value)); [apply Hskip |].
  intros Hrun. destruct (IH _ _ _ _ Hrun) as ((m1 & Hj) & (m2 & Hn) & _).
  destruct correct; simpl in Hj, Hn.
  - split; [eexists; rewrite Hj, <- app_assoc; reflexivity |].
    split; [eexists; exact Hn | discriminate].
  - split; [eexists; rewrite Hj, <- !app_assoc; reflexivity |].
    split; [eexists; rewrite Hn, <- app_assoc; reflexivity |].
    intros _ _. rewrite Hj, Hn. split.
    + apply elem_of_app. left. apply elem_of_app. right. left.
    + apply elem_of_app. left. apply elem_of_app. left. apply elem_of_app. right. left.
Qed.

Lemma convert_object_grows (o : XMLObject.t) fuel number l l' :
  Converter.convert_object fuel o number l = Some (Ok l') ->
  (exists more, Converter.json l' = Converter.json l ++ more) /\
  (exists more, Converter.object_names l' = Converter.object_names l ++ more) /\
  (Converter.json l' <> Converter.json l ->
   forall name i, XMLObject.get_value o "<obj_name>" 0 = Ok (Some name, i) ->
     name ∈ Converter.object_names l' /\ Converter.header_line name ∈ Converter.json l').
Proof.
  unfold Converter.convert_object.
  destruct (XMLObject.get_value o "<obj_name>" 0) as [[[name|] index]|e];
    [| | discriminate].
  - case_decide.
    + intros [= <-]. simpl.
      split; [exists []; rewrite app_nil_r; reflexivity |].
      split; [exists []; rewrite app_nil_r; reflexivity |]. intros H'. contradiction.
    + intros Hrun. destruct (fields_loop_grows _ _ _ _ _ _ _ _ Hrun) as (Hj & Hn & Hput).
      split; [exact Hj |]. split; [exact Hn |].
      intros Hne name' i [= <- <-]. apply Hput; [reflexivity | exact Hne].
  - intros [= <-]. simpl.
    split; [exists []; rewrite app_nil_r; reflexivity |].
    split; [exists []; rewrite app_nil_r; reflexivity |]. intros H'. contradiction.
Qed.

Lemma convert_objects_grows fuel objs :
  forall number l l',
    Converter.convert_objects fuel objs number l = Some (Ok l') ->
    (exists more, Converter.json l' = Converter.json l ++ more) /\
    (exists more, Converter.object_names l' = Converter.object_names l ++ more).
Proof.
  induction objs as [|o objs IH]; intros number l l'; simpl.
  - intros [= <-]. split; exists []; rewrite app_nil_r; reflexivity.
  - destruct (Converter.convert_object fuel o (number + 1) l) as [[l1|e]|] eqn:Ho;
      try discriminate.
    intros Hrest. destruct (convert_object_grows _ _ _ _ _ Ho) as ((j1 & Hj1) & (n1 & Hn1) & _).
    destruct (IH _ _ _ Hrest) as ((j2 & Hj2) & (n2 & Hn2)).
    split; eexists; [rewrite Hj2, Hj1 | rewrite Hn2, Hn1]; rewrite <- app_assoc; reflexivity.
Qed.

(** C5, as stated, fails when the first of the two records has no valid
    field group: its name is not recorded, nothing is put out for it, and
    the second record is put out without a diagnostic about its name. *)
Lemma duplicate_name_after_empty_object :
  main 2
    ("<object><obj_name>A</obj_name></object>" +:+
     "<object><obj_name>A</obj_name>" +:+
       "<field><name>x</name><type>int</type><value>5</value></field></object>") =
  Some (Ok ([],
            ["Object 1: Required fields were not filled" +:+ Py.nl],
            Converter.Written
              ["{" +:+ Py.nl;
               Converter.header_line "A";
               Py.tab +:+ Py.tab +:+ Py.dq +:+ "x" +:+ Py.dq +:+ ": 5" +:+ Py.nl;
               Py.tab +:+ " }" +:+ Py.nl;
               "}"])).
Proof. vm_compute. reflexivity. Qed.

(** C5 (amended): when a record is put out (it adds lines to [json]), every
    later record with the same name, whatever the records in between, adds no
    line and gets exactly one diagnostic, which names the duplicate; the
    header of the first stays in [json]. *)
Theorem duplicate_object_name_omitted (fuel : nat) (o1 o2 : XMLObject.t)
    (between : list XMLObject.t) (name : string) (i1 i2 : Z)
    (number1 number2 : Z) (l l1 l2 : Converter.lines) :
  XMLObject.get_value o1 "<obj_name>" 0 = Ok (Some name, i1) ->
  XMLObject.get_value o2 "<obj_name>" 0 = Ok (Some name, i2) ->
  Converter.convert_object fuel o1 number1 l = Some (Ok l1) ->
  Converter.json l1 <> Converter.json l ->
  Converter.convert_objects fuel between number1 l1 = Some (Ok l2) ->
  Converter.header_line name ∈ Converter.json l2 /\
  exists l3,
    Converter.convert_object fuel o2 number2 l2 = Some (Ok l3) /\
    Converter.json l3 = Converter.json l2 /\
    Converter.error_stream (Converter.conv l3) =
      Converter.error_stream (Converter.conv l2) ++
      [Converter.obj_error_line number2
         ("Duplicate object name: " +:+ Py.dq +:+ name +:+ Py.dq)].
Proof.
  intros Hname1 Hname2 Hfirst Hput Hbetween.
  destruct (convert_object_grows _ _ _ _ _ Hfirst) as (_ & _ & Hrec).
  destruct (Hrec Hput name i1 Hname1) as [Hin Hheader].
  destruct (convert_objects_grows _ _ _ _ _ Hbetween) as ((j & Hj) & (n & Hn)).
  split; [rewrite Hj; apply elem_of_app; left; exact Hheader |].
  eexists. split.
  - apply (convert_object_duplicate o2 name i2); [exact Hname2 |].
    rewrite Hn. apply elem_of_app. left. exact Hin.
  - split; reflexivity.
Qed.

Lemma duplicate_object_name_omitted_witness :
  let o1 := record_of ("A", [("x", "int", "5")]) in
  let oB := record_of ("B", [("y", "int", "7")]) in
  let o2 := record_of ("A", [("z", "string", "t")]) in
  let l := first_lines (Converter.init object_tag) in
  exists l2 l3,
    Converter.convert_objects 2 [o1; oB] 0 l = Some (Ok l2) /\
    Converter.header_line "A" ∈ Converter.json l2 /\
    Converter.convert_object 2 o2 3 l2 = Some (Ok l3) /\
    Converter.json l3 = Converter.json l2 /\
    Converter.error_stream (Converter.conv l3) =
      [Converter.obj_error_line 3
         ("Duplicate object name: " +:+ Py.dq +:+ "A" +:+ Py.dq)].
Proof.
  intros o1 oB o2 l.
  pose (l1 := fields_result 1 "A" [(Some "x", Some "int", Some "5")] false l).
  pose (l2 := fields_result 2 "B" [(Some "y", Some "int", Some "7")] false l1).
  assert (Hname1 : XMLObject.get_value o1 "<obj_name>" 0 = Ok (Some "A", 0)) by reflexivity.
  assert (Hname2 : XMLObject.get_value o2 "<obj_name>" 0 = Ok (Some "A", 0)) by reflexivity.
  assert (Hfirst : Converter.convert_object 2 o1 1 l = Some (Ok l1)) by reflexivity.
  assert (Hput : Converter.json l1 <> Converter.json l) by discriminate.
  assert (Hbetween : Converter.convert_objects 2 [oB] 1 l1 = Some (Ok l2)) by reflexivity.
  destruct (duplicate_object_name_omitted 2 o1 o2 [oB] "A" 0 0 1 3 l l1 l2
              Hname1 Hname2 Hfirst Hput Hbetween) as (Hheader & l3 & Hrun & Hjson & Herr).
  exists l2, l3. split; [reflexivity |]. split; [exact Hheader |].
  split; [exact Hrun |]. split; [exact Hjson | exact Herr].
Defined.

(** ** Converter.flush and the end of Converter.run *)

Lemma obj_error_line_starts (number : Z) (message : string) :
  0 <= number -> starts_with "O" (Converter.obj_error_line number message).
Proof.
  intros H. unfold Converter.obj_error_line.
  rewrite decide_False by lia. reflexivity.
Qed.

Lemma convert_objects_without_entry fuel objs :
  forall number l,
    0 <= number ->
    Converter.object_names l = [] ->
    Forall (record_without_entry fuel) objs ->
    exists l' errs,
      Converter.convert_objects fuel objs number l = Some (Ok l') /\
      Converter.json l' = Converter.json l /\
      Converter.conv l' = foldl Converter.put_error (Converter.conv l) errs /\
      Forall (starts_with "O") errs.
Proof.
  induction objs as [|o objs IH]; intros number l Hnum Hnames Hall.
  - exists l, []. repeat split. constructor.
  - inversion Hall as [|o' objs' (name & gs & Hshaped & Hfuel & Hnone) Hrest]; subst.
    simpl.
    assert (exists l1 errs1,
      Converter.convert_object fuel o (number + 1) l = Some (Ok l1) /\
      Converter.json l1 = Converter.json l /\
      Converter.object_names l1 = [] /\
      Converter.conv l1 = foldl Converter.put_error (Converter.conv l) errs1 /\
      Forall (starts_with "O") errs1) as (l1 & errs1 & -> & Hj1 & Hn1 & Hc1 & He1).
    { destruct name as [name|].
      - destruct Hnone as [Hnone | Hnone]; [discriminate |].
        rewrite (convert_object_shaped o name gs) by
          (try assumption; rewrite Hnames; intros H; inversion H).
        eexists _, _. split; [reflexivity |].
        unfold fields_result, entry_lines. rewrite Hnone, Hnames. simpl.
        rewrite app_nil_r. repeat split.
        apply Forall_forall. intros e He.
        apply list_elem_of_In, in_concat in He as (es & Hes & He).
        apply in_map_iff in Hes as (g & <- & _).
        destruct g as [[[fn|] [ft|]] [fv|]]; simpl in He;
          try (destruct (int_not_digits ft fv); simpl in He);
          try contradiction;
          destruct He as [<- | []]; apply obj_error_line_starts; lia.
      - rewrite (convert_object_unnamed o gs) by exact Hshaped.
        eexists _, [_]. split; [reflexivity |]. simpl.
        split; [reflexivity |]. split; [exact Hnames |]. split; [reflexivity |].
        repeat constructor. apply obj_error_line_starts. lia. }
    destruct (IH (number + 1) l1 ltac:(lia) Hn1 Hrest) as (l' & errs & -> & Hj & Hc & He).
    exists l', (errs1 ++ errs). split; [reflexivity |].
    split; [congruence |]. split; [rewrite Hc, Hc1, foldl_app; reflexivity |].
    apply Forall_app. split; assumption.
Qed.

(** C7, as stated, fails when no record was completed: [run] then calls
    neither [convert] nor [flush], and no diagnostic is recorded. *)
Lemma nothing_recorded_without_objects :
  main 1 EmptyString = Some (Ok ([], [], Converter.NotWritten)).
Proof. reflexivity. Qed.

(** C7 (amended): when records were completed and none gives an entry, no
    file is written and, after the diagnostics of the records, exactly one
    diagnostic reports that there is nothing to write; when no record was
    completed the serializer is not run, nothing is written and nothing is
    recorded. *)
Theorem nothing_to_write_reported (fuel : nat) (c : Converter.t) :
  (Converter.objects c = [] ->
   Converter.serialize fuel c = Some (Ok (c, Converter.NotWritten))) /\
  (Converter.objects c <> [] ->
   Forall (record_without_entry fuel) (Converter.objects c) ->
   exists c' errs,
     Converter.serialize fuel c = Some (Ok (c', Converter.NotWritten)) /\
     Converter.error_stream c' =
       Converter.error_stream c ++ errs ++ [nothing_to_write] /\
     nothing_to_write ∉ errs).
Proof.
  unfold Converter.serialize. split.
  - intros ->. reflexivity.
  - intros Hne Hall. rewrite decide_True by (destruct (Converter.objects c); [congruence | simpl; lia]).
    unfold Converter.convert.
    destruct (convert_objects_without_entry fuel (Converter.objects c) 0
                {| Converter.conv := c; Converter.json := ["{" +:+ Py.nl];
                   Converter.object_names := [] |} ltac:(lia) eq_refl Hall)
      as (l' & errs & -> & Hj & Hc & He).
    rewrite Hj. simpl. eexists _, errs. split; [reflexivity |]. split.
    + simpl. rewrite Hc, error_stream_put_errors. simpl.
      rewrite <- app_assoc. reflexivity.
    + intros Hin. rewrite Forall_forall in He. specialize (He _ Hin). discriminate He.
Qed.

Lemma nothing_to_write_reported_witness :
  let c :=
    {| Converter.stack := []; Converter.error_stream := [];
       Converter.string_counter := 13; Converter.structure := object_tag;
       Converter.current_object := record_of ("A", [("x", "int", "five")]);
       Converter.closed_objects := []; Converter.current_appended := 1 |} in
  exists c',
    Converter.serialize 2 c = Some (Ok (c', Converter.NotWritten)) /\
    exists errs,
      Converter.error_stream c' = errs ++ [nothing_to_write] /\
      nothing_to_write ∉ errs.
Proof.
  intros c.
  assert (Hne : Converter.objects c <> []) by discriminate.
  assert (Hall : Forall (record_without_entry 2) (Converter.objects c)).
  { repeat constructor.
    exists (Some "A"), [(Some "x", Some "int", Some "five")].
    split; [| split; [simpl; lia | right; reflexivity]].
    eexists _, _. split; [reflexivity |]. split; [reflexivity |]. repeat constructor. }
  destruct (nothing_to_write_reported 2 c) as [_ H].
  destruct (H Hne Hall) as (c' & errs & Hrun & Herr & Hnot).
  exists c'. split; [exact Hrun |]. exists errs. split; [exact Herr | exact Hnot].
Defined.

(** ** Commas and closing lines *)

Lemma count_char_le_length c s : (count_char c s <= String.length s)%nat.
Proof. induction s as [|x s IH]; simpl; [lia | destruct (Ascii.eqb x c); lia]. Qed.

Lemma remove_char_fuel_all c s : Py.char_in c (Py.remove_char_fuel c None s) = false.
Proof.
  induction s as [|x s IH]; simpl; [reflexivity |].
  destruct (Ascii.eqb x c) eqn:Hx; [exact IH |].
  unfold Py.char_in in *. simpl. rewrite Ascii.eqb_sym, Hx. exact IH.
Qed.

Lemma remove_char_fuel_enough c s :
  forall k, (count_char c s <= k)%nat ->
            Py.char_in c (Py.remove_char_fuel c (Some k) s) = false.
Proof.
  induction s as [|x s IH]; intros k; simpl; [reflexivity |].
  destruct (Ascii.eqb x c) eqn:Hx; simpl.
  - destruct k as [|k]; [lia |]. intros H. apply IH. lia.
  - intros H. unfold Py.char_in in *. simpl. rewrite Ascii.eqb_sym, Hx. apply IH, H.
Qed.

Lemma trailing_separator_comma s : trailing_separator s -> Py.char_in "," s = true.
Proof.
  intros [body ->]. induction body as [|x body IH]; [reflexivity |].
  unfold Py.char_in in *. change (String x body +:+ "," +:+ Py.nl)
    with (String x (body +:+ "," +:+ Py.nl)).
  simpl. rewrite IH. apply orb_true_r.
Qed.

Lemma body_line_chars s :
  body_line s ->
  exists a b rest,
    s = String a (String b rest) /\ a <> ","%char /\ b <> ","%char /\
    (s = Converter.close_line \/
     String.get 1 s = Some "009"%char \/ String.get 2 s = Some "034"%char).
Proof.
  intros [name | f_name f_type f_value |]; eexists _, _, _; (split; [reflexivity |]);
    (split; [discriminate |]); (split; [discriminate |]).
  - right. right. reflexivity.
  - right. left. reflexivity.
  - left. reflexivity.
Qed.

Lemma stripped_no_comma s :
  body_line s \/ s = "}" ->
  Py.char_in "," (Py.remove_char "," (Py.len s - 2) s) = false.
Proof.
  intros [H | ->]; [| reflexivity].
  destruct (body_line_chars s H) as (a & b & rest & -> & Ha & Hb & _).
  unfold Py.remove_char, Py.len.
  destruct (Z.ltb_spec (Z.of_nat (String.length (String a (String b rest))) - 2) 0);
    [apply remove_char_fuel_all |].
  apply remove_char_fuel_enough. simpl.
  destruct (Ascii.eqb_spec a ","); [contradiction |].
  destruct (Ascii.eqb_spec b ","); [contradiction |].
  pose proof (count_char_le_length "," rest). simpl. lia.
Qed.

Lemma remove_char_fuel_get c k s i x :
  x <> c ->
  (forall j y, (j <= i)%nat -> String.get j s = Some y -> y <> c) ->
  String.get i s = Some x ->
  String.get i (Py.remove_char_fuel c k s) = Some x.
Proof.
  revert k s. induction i as [|i IH]; intros k [|y s] Hx Hpre Hget; try discriminate.
  - simpl in *. injection Hget as ->.
    destruct (Ascii.eqb_spec x c); [contradiction | reflexivity].
  - simpl in *. destruct (Ascii.eqb_spec y c) as [-> | Hy].
    + exfalso. apply (Hpre 0%nat c); [lia | reflexivity | reflexivity].
    + simpl. apply IH; [exact Hx | | exact Hget].
      intros j z Hj Hz. apply (Hpre (S j) z); [lia | exact Hz].
Qed.

Lemma closing_written s w :
  body_line s \/ s = "}" ->
  w = s \/ w = Py.remove_char "," (Py.len s - 2) s ->
  closing_line w ->
  s ∈ Converter.no_trailing_comma.
Proof.
  intros [Hs | ->] Hw Hclose; [| left].
  destruct (body_line_chars s Hs) as (a & b & rest & Heq & Ha & Hb & [-> | Hget]);
    [right; left |].
  exfalso.
  assert (String.get 1 w = Some "009"%char \/ String.get 2 w = Some "034"%char) as Hw'.
  { destruct Hw as [-> | ->]; [exact Hget |]. unfold Py.remove_char.
    destruct Hget as [Hget | Hget]; [left | right];
      (apply remove_char_fuel_get; [discriminate | | exact Hget]);
      subst s; intros [|[|[|j]]] y Hj Hy; simpl in Hy; try lia; try congruence.
    simpl in Hget. congruence. }
  destruct Hclose as [-> | [-> | ->]]; destruct Hw' as [H | H]; discriminate H.
Qed.

Lemma flush_loop_head (js : list string) (s2 : string) :
  exists w rest,
    Converter.flush_loop s2 js = w :: rest /\
    (w = s2 \/ w = Py.remove_char "," (Py.len s2 - 2) s2).
Proof.
  destruct js as [|next js]; simpl; [eexists _, _; split; [reflexivity | left; reflexivity] |].
  case_decide; eexists _, _; (split; [reflexivity |]); [right | left]; reflexivity.
Qed.

Lemma flush_loop_no_trailing (js : list string) :
  forall s2,
    body_line s2 \/ s2 = "}" ->
    Forall (fun s => body_line s \/ s = "}") js ->
    no_trailing_separator (Converter.flush_loop s2 js).
Proof.
  induction js as [|next js IH]; intros s2 Hs2 Hjs; [exact I |].
  inversion Hjs as [|? ? Hnext Hrest]; subst.
  specialize (IH next Hnext Hrest).
  destruct (flush_loop_head js next) as (w & rest & Hloop & Hw).
  cbn [Converter.flush_loop]. rewrite Hloop in *.
  split; [| exact IH].
  intros Hclose Htrail.
  pose proof (closing_written next w Hnext Hw Hclose) as Hin.
  rewrite decide_True in Htrail by exact Hin.
  apply trailing_separator_comma in Htrail.
  rewrite stripped_no_comma in Htrail by exact Hs2. discriminate.
Qed.

Lemma fields_loop_body (o : XMLObject.t) (number : Z) (name : string) (fuel : nat) :
  forall index correct l l',
    Converter.fields_loop fuel o number name index correct l = Some (Ok l') ->
    exists more, Converter.json l' = Converter.json l ++ more /\ Forall body_line more.
Proof.
  assert (Hend : forall (correct : bool) l l',
    Some (Ok (if correct then Converter.put_json l Converter.close_line else l)) =
      Some (Ok l') ->
    exists more, Converter.json l' = Converter.json l ++ more /\ Forall body_line more).
  { intros [|] l l' [= <-]; simpl.
    - eexists. split; [reflexivity |]. repeat constructor.
    - exists []. rewrite app_nil_r. split; [reflexivity | constructor]. }
  induction fuel as [|fuel IH]; intros index correct l l'; simpl;
    (case_decide; [apply Hend |]); [discriminate |].
  destruct (Converter.read_group o index) as [[|f_name f_type f_value index']|e];
    [apply Hend | | discriminate].
  assert (Hskip : forall message,
    Converter.fields_loop fuel o number name index' correct
      (Converter.put_obj_error l number message) = Some (Ok l') ->
    exists more, Converter.json l' = Converter.json l ++ more /\ Forall body_line more).
  { intros message Hrun. exact (IH _ _ _ _ Hrun). }
  destruct f_name as [f_name|], f_type as [f_type|], f_value as [f_value|];
    try apply Hskip.
  destruct (bool_decide (f_type = "int") && negb (Py.isdigit f_value)); [apply Hskip |].
  intros Hrun. destruct (IH _ _ _ _ Hrun) as (more & Hj & Hmore).
  destruct correct; simpl in Hj; eexists;
    (split; [rewrite Hj, <- ?app_assoc; reflexivity |]);
    repeat (apply Forall_app; split); try exact Hmore; repeat constructor.
Qed.

Lemma convert_object_body (o : XMLObject.t) fuel number l l' :
  Converter.convert_object fuel o number l = Some (Ok l') ->
  exists more, Converter.json l' = Converter.json l ++ more /\ Forall body_line more.
Proof.
  unfold Converter.convert_object.
  destruct (XMLObject.get_value o "<obj_name>" 0) as [[[name|] index]|e];
    [| | discriminate].
  - case_decide; [| apply fields_loop_body].
    intros [= <-]. exists []. simpl. rewrite app_nil_r. split; [reflexivity | constructor].
  - intros [= <-]. exists []. simpl. rewrite app_nil_r. split; [reflexivity | constructor].
Qed.

Lemma convert_objects_body fuel objs :
  forall number l l',
    Converter.convert_objects fuel objs number l = Some (Ok l') ->
    exists more, Converter.json l' = Converter.json l ++ more /\ Forall body_line more.
Proof.
  induction objs as [|o objs IH]; intros number l l'; simpl.
  - intros [= <-]. exists []. rewrite app_nil_r. split; [reflexivity | constructor].
  - destruct (Converter.convert_object fuel o (number + 1) l) as [[l1|e]|] eqn:Ho;
      try discriminate.
    intros Hrest. destruct (convert_object_body _ _ _ _ _ Ho) as (m1 & Hj1 & Hm1).
    destruct (IH _ _ _ Hrest) as (m2 & Hj2 & Hm2).
    exists (m1 ++ m2). split; [rewrite Hj2, Hj1, <- app_assoc; reflexivity |].
    apply Forall_app. split; assumption.
Qed.

(** C4: whatever the completed records, when the serializer writes the
    output file, no write that comes just before a closing line (the end of
    an object or the end of the document) ends with the separator. *)
Theorem written_without_trailing_separator (fuel : nat) (c c' : Converter.t)
    (writes : list string) :
  Converter.serialize fuel c = Some (Ok (c', Converter.Written writes)) ->
  no_trailing_separator writes.
Proof.
  unfold Converter.serialize, Converter.convert.
  case_decide; [| discriminate].
  destruct (Converter.convert_objects fuel (Converter.objects c) 0 _)
    as [[l|e]|] eqn:Hconv; try discriminate.
  destruct (convert_objects_body _ _ _ _ _ Hconv) as (more & Hj & Hmore).
  rewrite Hj. simpl.
  destruct more as [|x more]; [discriminate |].
  simpl. destruct (more ++ ["}"]) as [|y tail] eqn:Htail;
    [destruct more; discriminate |].
  rewrite <- Htail. clear y tail Htail. intros [= <- <-].
  assert (Forall (fun s => body_line s \/ s = "}") (more ++ ["}"])) as Hall.
  { apply Forall_app. inversion Hmore; subst. split.
    - eapply Forall_impl; [eassumption | tauto].
    - constructor; [right; reflexivity | constructor]. }
  assert (body_line x \/ x = "}") as Hx by (inversion Hmore; tauto).
  pose proof (flush_loop_no_trailing _ x Hx Hall) as Hloop.
  destruct (flush_loop_head (more ++ ["}"]) x) as (w & rest & Heq & _).
  rewrite Heq in *. split; [| exact Hloop].
  intros _ Htrail. apply trailing_separator_comma in Htrail. discriminate.
Qed.

Lemma written_without_trailing_separator_witness :
  let c :=
    {| Converter.stack := []; Converter.error_stream := [];
       Converter.string_counter := 41; Converter.structure := object_tag;
       Converter.current_object := record_of ("B", [("z", "int", "7")]);
       Converter.closed_objects :=
         [record_of ("A", [("x", "int", "5"); ("y", "string", "t")])];
       Converter.current_appended := 1 |} in
  exists c' writes,
    Converter.serialize 3 c = Some (Ok (c', Converter.Written writes)) /\
    length writes = 9%nat /\
    no_trailing_separator writes.
Proof.
  intros c.
  destruct (Converter.serialize 3 c) as [[[c' [|writes]]|e]|] eqn:Hrun;
    try (vm_compute in Hrun; discriminate Hrun).
  exists c', writes. split; [reflexivity |]. split.
  - vm_compute in Hrun. injection Hrun as _ <-. reflexivity.
  - exact (written_without_trailing_separator 3 c c' writes Hrun).
Defined.

(** ** set_value on the records of the bundled schema *)

Lemma last_index_app_exact (l l' : list string) v i :
  last_index l' v = Ok i -> last_index (l ++ l') v = Ok (length l + i)%nat.
Proof.
  unfold last_index.
  destruct (index_of (reverse l') v) as [r|] eqn:Hr; simpl; [| discriminate].
  intros [= <-]. destruct (index_of_lookup _ _ _ Hr) as [Hl _].
  apply lookup_lt_Some in Hl. rewrite length_reverse in Hl.
  rewrite reverse_app, (index_of_app_l _ _ _ _ Hr). simpl.
  rewrite length_app. f_equal. lia.
Qed.

Lemma node_of_obj_name :
  XMLObject.tag_to_node None object_tag "<obj_name>" =
  Some (Node "<obj_name>" false None [], Some object_tag).
Proof. reflexivity. Qed.

Lemma node_of_name :
  XMLObject.tag_to_node None object_tag "<name>" =
  Some (Node "<name>" false None [], Some field_tag).
Proof. reflexivity. Qed.

Lemma node_of_type :
  XMLObject.tag_to_node None object_tag "<type>" =
  Some (Node "<type>" false (Some ["int"; "string"]) [], Some field_tag).
Proof. reflexivity. Qed.

Lemma node_of_value :
  XMLObject.tag_to_node None object_tag "<value>" =
  Some (Node "<value>" false None [], Some field_tag).
Proof. reflexivity. Qed.

Ltac slot_lookup pre prev k :=
  match goal with
  | |- context [(prev ++ ?vs) !! (length pre + k)%nat] =>
      let H := fresh in
      assert (H : (prev ++ vs) !! (length pre + k)%nat = vs !! k)
        by (rewrite lookup_app_r by lia; f_equal; lia);
      rewrite H; clear H
  end.

Ltac slot_insert pre prev k :=
  match goal with
  | |- context [<[(length pre + k)%nat := ?x]> (prev ++ ?vs)] =>
      let H := fresh in
      assert (H : <[(length pre + k)%nat := x]> (prev ++ vs) = prev ++ <[k := x]> vs)
        by (rewrite insert_app_r_alt by lia; do 2 f_equal; lia);
      rewrite H; clear H
  end.

Lemma set_name_fresh pre prev b c n :
  length pre = length prev ->
  XMLObject.set_value (slots pre prev None b c) "<name>" n =
  (slots pre prev (Some n) b c, [], Ok true).
Proof.
  intros Hlen. unfold XMLObject.set_value, slots.
  cbn [XMLObject.tags XMLObject.values XMLObject.structure].
  rewrite (last_index_app_exact pre triple "<name>" 0) by reflexivity.
  slot_lookup pre prev 0%nat. cbv beta iota. cbn [lookup list_lookup].
  rewrite node_of_name. unfold XMLObject.store_value.
  cbn [allowed_values XMLObject.tags XMLObject.values XMLObject.structure].
  rewrite decide_True by (rewrite length_app; simpl; lia).
  slot_insert pre prev 0%nat. reflexivity.
Qed.

Lemma set_name_clone pre prev a b c n :
  length pre = length prev ->
  XMLObject.set_value (slots pre prev (Some a) b c) "<name>" n =
  (slots (pre ++ triple) (prev ++ [Some a; b; c]) (Some n) None None, [], Ok true).
Proof.
  intros Hlen. unfold XMLObject.set_value, slots.
  cbn [XMLObject.tags XMLObject.values XMLObject.structure].
  rewrite (last_index_app_exact pre triple "<name>" 0) by reflexivity.
  slot_lookup pre prev 0%nat. cbn [lookup list_lookup].
  rewrite node_of_name. cbn [repeatable field_tag].
  destruct (build_tags_values
              {| XMLObject.structure := object_tag; XMLObject.tags := pre ++ triple;
                 XMLObject.values := prev ++ [Some a; b; c] |} field_tag)
    as (Ht & Hv & Hs).
  cbn [XMLObject.tags XMLObject.values XMLObject.structure] in Ht, Hv, Hs.
  change (leaves field_tag) with triple in Ht, Hv.
  change (replicate (length triple) None) with [@None string; None; None] in Hv.
  rewrite Ht.
  rewrite (last_index_app_exact (pre ++ triple) triple "<name>" 0) by reflexivity.
  unfold XMLObject.store_value.
  cbn [allowed_values]. rewrite Hv, Hs, Ht.
  assert (Hlen' : length (pre ++ triple) = length (prev ++ [Some a; b; c]))
    by (rewrite !length_app; simpl; lia).
  rewrite decide_True by (rewrite !length_app in *; simpl in *; lia).
  slot_insert (pre ++ triple) (prev ++ [Some a; b; c]) 0%nat. reflexivity.
Qed.

Lemma set_type_fresh pre prev a c t :
  length pre = length prev ->
  t = "int" \/ t = "string" ->
  XMLObject.set_value (slots pre prev a None c) "<type>" t =
  (slots pre prev a (Some t) c, [], Ok true).
Proof.
  intros Hlen Ht. unfold XMLObject.set_value, slots.
  cbn [XMLObject.tags XMLObject.values XMLObject.structure].
  rewrite (last_index_app_exact pre triple "<type>" 1) by reflexivity.
  slot_lookup pre prev 1%nat. cbn [lookup list_lookup].
  rewrite node_of_type. unfold XMLObject.store_value.
  cbn [allowed_values XMLObject.tags XMLObject.values XMLObject.structure].
  rewrite decide_True by (destruct Ht as [-> | ->]; [left | right; left]).
  rewrite decide_True by (rewrite length_app; simpl; lia).
  slot_insert pre prev 1%nat. reflexivity.
Qed.

Lemma set_value_fresh pre prev a b v :
  length pre = length prev ->
  XMLObject.set_value (slots pre prev a b None) "<value>" v =
  (slots pre prev a b (Some v), [], Ok true).
Proof.
  intros Hlen. unfold XMLObject.set_value, slots.
  cbn [XMLObject.tags XMLObject.values XMLObject.structure].
  rewrite (last_index_app_exact pre triple "<value>" 2) by reflexivity.
  slot_lookup pre prev 2%nat. cbn [lookup list_lookup].
  rewrite node_of_value. unfold XMLObject.store_value.
  cbn [allowed_values XMLObject.tags XMLObject.values XMLObject.structure].
  rewrite decide_True by (rewrite length_app; simpl; lia).
  slot_insert pre prev 2%nat. reflexivity.
Qed.

Lemma set_obj_name_fresh nm :
  XMLObject.set_value (XMLObject.init object_tag) "<obj_name>" nm =
  (slots ["<obj_name>"] [Some nm] None None None, [], Ok true).
Proof. reflexivity. Qed.

(** ** Converter.run on the strings of a well-formed input *)

Lemma legal_value_first (v : string) :
  legal_value v -> exists x rest, v = String x rest /\ x <> "<"%char.
Proof.
  intros (Hne & Hill & _ & _). destruct v as [|x rest]; [contradiction |].
  exists x, rest. split; [reflexivity |]. intros ->. discriminate Hill.
Qed.

Lemma run_open_child (c : Converter.t) t closing text child q :
  top (Converter.stack c) = Some t ->
  matching_tag (value t) = Ok closing ->
  text <> closing ->
  ~ close_shaped text ->
  has_child t = true ->
  find_child t text = Some child ->
  Converter.run_loop c (text :: q) =
  Converter.run_loop
    (Converter.with_stack (Converter.count_string c) (push (Converter.stack c) child)) q.
Proof.
  intros Htop Hclosing Hne Hshape Hchild Hfind.
  apply not_close_shaped in Hshape.
  destruct c as [stk errs n root cur closed k]. simpl in *.
  rewrite Htop. simpl. rewrite Hclosing. simpl.
  rewrite decide_False by exact Hne. rewrite Hshape, Hchild, Hfind. reflexivity.
Qed.

Lemma run_close (c : Converter.t) t closing q :
  top (Converter.stack c) = Some t ->
  matching_tag (value t) = Ok closing ->
  Converter.run_loop c (closing :: q) =
  Converter.run_loop
    (Converter.with_stack
       (if decide (value t = value (Converter.structure c))
        then Converter.append_current (Converter.count_string c)
        else Converter.count_string c)
       (pop (Converter.stack c))) q.
Proof.
  intros Htop Hclosing.
  destruct c as [stk errs n root cur closed k]. simpl in *.
  rewrite Htop. simpl. rewrite Hclosing. simpl.
  rewrite decide_True by reflexivity. case_decide; reflexivity.
Qed.

Lemma run_leaf_value (c c1 : Converter.t) t closing v q :
  top (Converter.stack c) = Some t ->
  matching_tag (value t) = Ok closing ->
  starts_with "<" closing ->
  has_child t = false ->
  legal_value v ->
  Converter.set_value (Converter.count_string c) (value t) v = Ok c1 ->
  Converter.run_loop c (v :: closing :: q) =
  Converter.run_loop
    (Converter.with_stack (Converter.count_string c1) (pop (Converter.stack c1))) q.
Proof.
  intros Htop Hclosing Hstart Hchild Hlegal Hset.
  destruct (legal_value_first v Hlegal) as (x & rest & -> & Hx).
  destruct Hlegal as (_ & _ & _ & Hshape). apply not_close_shaped in Hshape.
  assert (String x rest <> closing) as Hne.
  { intros <-. unfold starts_with in Hstart. simpl in Hstart. congruence. }
  destruct c as [stk errs n root cur closed k].
  cbn [Converter.run_loop].
  cbn [Converter.count_string Converter.stack Converter.error_stream
       Converter.string_counter Converter.structure Converter.current_object
       Converter.closed_objects Converter.current_appended] in *.
  rewrite Htop. cbn [mbind result_bind]. unfold mbind, result_bind.
  rewrite Hclosing.
  rewrite decide_False by exact Hne. rewrite Hshape, Hchild.
  cbn [Py.get String.get]. destruct (Ascii.eqb_spec x "<"); [contradiction |].
  rewrite Hset. rewrite decide_True by reflexivity. reflexivity.
Qed.

Lemma run_open_root (c : Converter.t) q :
  top (Converter.stack c) = None ->
  Converter.run_loop c (value (Converter.structure c) :: q) =
  Converter.run_loop
    (Converter.new_object
       (Converter.with_stack (Converter.count_string c)
          (push (Converter.stack c) (Converter.structure c)))) q.
Proof.
  intros Htop. destruct c as [stk errs n root cur closed k]. simpl in *.
  rewrite Htop. rewrite decide_True by reflexivity. reflexivity.
Qed.

Ltac quiet_eq :=
  unfold Converter.with_stack, Converter.count_string, Converter.append_current,
    Converter.new_object, Converter.objects, quiet;
  simpl; f_equal; try lia.

Lemma quiet_set_value n stk cur cur' closed k tag v :
  XMLObject.set_value cur tag v = (cur', [], Ok true) ->
  Converter.set_value (quiet n stk cur closed k) tag v = Ok (quiet n stk cur' closed k).
Proof. intros H. unfold Converter.set_value, quiet. simpl. rewrite H. reflexivity. Qed.

(** An opening tag of a childless node, its value and its closing tag. *)
Lemma run_leaf_block n cont below tag node closing_cont closing v cur cur' closed k q :
  matching_tag (value cont) = Ok closing_cont ->
  tag <> closing_cont ->
  ~ close_shaped tag ->
  has_child cont = true ->
  find_child cont tag = Some node ->
  value node = tag ->
  has_child node = false ->
  matching_tag tag = Ok closing ->
  starts_with "<" closing ->
  legal_value v ->
  XMLObject.set_value cur tag v = (cur', [], Ok true) ->
  Converter.run_loop (quiet n (cont :: below) cur closed k) (tag :: v :: closing :: q) =
  Converter.run_loop (quiet (n + 3) (cont :: below) cur' closed k) q.
Proof.
  intros Hcc Hne Hshape Hchild Hfind Hval Hleaf Hclosing Hstart Hlegal Hset.
  rewrite (run_open_child _ cont closing_cont tag node) by (assumption || reflexivity).
  change (Converter.with_stack (Converter.count_string (quiet n (cont :: below) cur closed k))
            (push (Converter.stack (quiet n (cont :: below) cur closed k)) node))
    with (quiet (n + 1) (node :: cont :: below) cur closed k).
  rewrite (run_leaf_value _ (quiet (n + 1 + 1) (node :: cont :: below) cur' closed k)
             node closing v); try assumption; try reflexivity.
  - f_equal. quiet_eq.
  - rewrite Hval. exact Hclosing.
  - rewrite Hval. apply quiet_set_value. exact Hset.
Qed.

Lemma legal_int : legal_value "int".
Proof. repeat split; try discriminate. intros [_ H]. discriminate H. Qed.

Lemma legal_string : legal_value "string".
Proof. repeat split; try discriminate. intros [_ H]. discriminate H. Qed.

Lemma field_step_slots n pre prev a b c pre' prev' (f : field) closed k q :
  length pre' = length prev' ->
  valid_field f ->
  XMLObject.set_value (slots pre prev a b c) "<name>" f.1.1 =
    (slots pre' prev' (Some f.1.1) None None, [], Ok true) ->
  Converter.run_loop (quiet n [object_tag] (slots pre prev a b c) closed k)
    (field_tokens f ++ q) =
  Converter.run_loop
    (quiet (n + 11) [object_tag]
       (slots pre' prev' (Some f.1.1) (Some f.1.2) (Some f.2)) closed k) q.
Proof.
  intros Hlen (Hname & Hvalue & Htype) Hset.
  destruct f as [[f_name f_type] f_value].
  cbn [fst snd] in *.
  unfold field_tokens. cbn [fst snd app].
  rewrite (run_open_child (quiet n [object_tag] (slots pre prev a b c) closed k)
             object_tag "</object>" "<field>" field_tag
             _ eq_refl eq_refl ltac:(discriminate) ltac:(intros [_ H]; discriminate H)
             eq_refl eq_refl).
  change (Converter.with_stack _ _)
    with (quiet (n + 1) [field_tag; object_tag] (slots pre prev a b c) closed k).
  rewrite (run_leaf_block (n + 1) field_tag [object_tag] "<name>"
             (Node "<name>" false None []) "</field>" "</name>" f_name _ _ closed k
             _ eq_refl ltac:(discriminate) ltac:(intros [_ H]; discriminate H)
             eq_refl eq_refl eq_refl eq_refl eq_refl eq_refl Hname Hset).
  assert (legal_value f_type /\ (f_type = "int" \/ f_type = "string")) as [Hlt Hty].
  { destruct Htype as [[-> _] | ->]; split; auto using legal_int, legal_string. }
  rewrite (run_leaf_block (n + 1 + 3) field_tag [object_tag] "<type>"
             (Node "<type>" false (Some ["int"; "string"]) []) "</field>" "</type>"
             f_type _ _ closed k
             _ eq_refl ltac:(discriminate) ltac:(intros [_ H]; discriminate H)
             eq_refl eq_refl eq_refl eq_refl eq_refl eq_refl Hlt
             (set_type_fresh pre' prev' (Some f_name) None f_type Hlen Hty)).
  rewrite (run_leaf_block (n + 1 + 3 + 3) field_tag [object_tag] "<value>"
             (Node "<value>" false None []) "</field>" "</value>"
             f_value _ _ closed k
             _ eq_refl ltac:(discriminate) ltac:(intros [_ H]; discriminate H)
             eq_refl eq_refl eq_refl eq_refl eq_refl eq_refl Hvalue
             (set_value_fresh pre' prev' (Some f_name) (Some f_type) f_value Hlen)).
  rewrite (run_close (quiet (n + 1 + 3 + 3 + 3) [field_tag; object_tag]
                  (slots pre' prev' (Some f_name) (Some f_type) (Some f_value)) closed k)
                  field_tag "</field>" _ eq_refl eq_refl).
  f_equal. quiet_eq.
Qed.

Lemma record_of_nil nm :
  record_of (nm, []) = slots ["<obj_name>"] [Some nm] None None None.
Proof. reflexivity. Qed.

Lemma record_of_snoc nm (fs : list field) (f : field) :
  record_of (nm, fs ++ [f]) =
  slots ("<obj_name>" :: concat (map (fun _ => triple) fs))
        (Some nm :: concat (map (fun g : field => [Some g.1.1; Some g.1.2; Some g.2]) fs))
        (Some f.1.1) (Some f.1.2) (Some f.2).
Proof.
  unfold record_of, slots. cbn [fst snd].
  assert (forall A (d : A) (g : list field -> A),
             match fs ++ [f] with [] => d | x :: l => g (x :: l) end = g (fs ++ [f])) as Hm
    by (intros; destruct fs; reflexivity).
  f_equal.
  - cbn [app]. f_equal.
    rewrite (Hm _ triple (fun l => concat (map (fun _ => triple) l))).
    rewrite map_app, concat_app. reflexivity.
  - cbn [app]. f_equal.
    rewrite (Hm _ [None; None; None]
               (fun l => concat (map (fun g : field => [Some g.1.1; Some g.1.2; Some g.2]) l))).
    rewrite map_app, concat_app. reflexivity.
Qed.

Lemma slots_lengths (fs : list field) :
  length (concat (map (fun _ : field => triple) fs)) =
  length (concat (map (fun g : field => [Some g.1.1; Some g.1.2; Some g.2]) fs)).
Proof. induction fs as [|g fs IH]; simpl; [reflexivity | rewrite IH; reflexivity]. Qed.

Lemma field_step n nm (fs : list field) (f : field) closed k q :
  valid_field f ->
  Converter.run_loop (quiet n [object_tag] (record_of (nm, fs)) closed k)
    (field_tokens f ++ q) =
  Converter.run_loop (quiet (n + 11) [object_tag] (record_of (nm, fs ++ [f])) closed k) q.
Proof.
  intros Hf. destruct fs as [|g fs _] using rev_ind.
  - rewrite record_of_nil, (record_of_snoc nm [] f).
    apply field_step_slots; [reflexivity | exact Hf |].
    apply set_name_fresh. reflexivity.
  - rewrite (record_of_snoc nm fs g), (record_of_snoc nm (fs ++ [g]) f).
    rewrite !map_app, !concat_app. cbn [map concat]. rewrite !app_nil_r.
    rewrite !app_comm_cons.
    apply field_step_slots; [| exact Hf |].
    + rewrite !length_app. simpl. rewrite slots_lengths. reflexivity.
    + apply set_name_clone. simpl. rewrite slots_lengths. reflexivity.
Qed.

Lemma fields_steps nm (fs2 : list field) :
  forall n fs1 closed k q,
    Forall valid_field fs2 ->
    Converter.run_loop (quiet n [object_tag] (record_of (nm, fs1)) closed k)
      (concat (map field_tokens fs2) ++ q) =
    Converter.run_loop
      (quiet (n + 11 * Z.of_nat (length fs2)) [object_tag]
         (record_of (nm, fs1 ++ fs2)) closed k) q.
Proof.
  induction fs2 as [|f fs2 IH]; intros n fs1 closed k q Hall.
  - simpl. rewrite app_nil_r. f_equal. quiet_eq.
  - inversion Hall as [|? ? Hf Hrest]; subst.
    cbn [map concat]. rewrite <- app_assoc, field_step by exact Hf.
    rewrite IH by exact Hrest. rewrite <- app_assoc. f_equal.
    unfold quiet. f_equal. cbn [length]. lia.
Qed.

Lemma instance_step n cur closed k (i : instance) q :
  valid_instance i ->
  Converter.run_loop (quiet n [] cur closed k) (instance_tokens i ++ q) =
  Converter.run_loop
    (quiet (n + 5 + 11 * Z.of_nat (length i.2)) [] (record_of i)
       (closed ++ replicate k cur) 1) q.
Proof.
  intros (Hname & _ & Hfields). destruct i as [nm fs]. cbn [fst snd] in *.
  unfold instance_tokens. cbn [fst snd app].
  rewrite (run_open_root (quiet n [] cur closed k) _ eq_refl).
  change (Converter.new_object _)
    with (quiet (n + 1) [object_tag] (XMLObject.init object_tag)
            (closed ++ replicate k cur) 0).
  rewrite (run_leaf_block (n + 1) object_tag [] "<obj_name>"
             (Node "<obj_name>" false None []) "</object>" "</obj_name>" nm _ _ _ 0
             _ eq_refl ltac:(discriminate) ltac:(intros [_ H]; discriminate H)
             eq_refl eq_refl eq_refl eq_refl eq_refl eq_refl Hname
             (set_obj_name_fresh nm)).
  rewrite <- record_of_nil, <- app_assoc, fields_steps by exact Hfields.
  cbn [app].
  rewrite (run_close (quiet (n + 1 + 3 + 11 * Z.of_nat (length fs)) [object_tag]
                        (record_of (nm, fs)) (closed ++ replicate k cur) 0)
             object_tag "</object>" _ eq_refl eq_refl).
  f_equal. quiet_eq.
Qed.

Lemma doc_steps (doc : list instance) :
  forall n cur closed k,
    Forall valid_instance doc ->
    exists c,
      Converter.run_loop (quiet n [] cur closed k) (doc_tokens doc) = Ok c /\
      Converter.objects c = (closed ++ replicate k cur) ++ map record_of doc /\
      Converter.error_stream c = [].
Proof.
  induction doc as [|i doc IH]; intros n cur closed k Hall.
  - eexists. split; [reflexivity |]. simpl. rewrite app_nil_r. split; reflexivity.
  - inversion Hall as [|? ? Hi Hrest]; subst.
    unfold doc_tokens. cbn [map concat]. fold (doc_tokens doc).
    rewrite instance_step by exact Hi.
    destruct (IH (n + 5 + 11 * Z.of_nat (length i.2)) (record_of i)
                (closed ++ replicate k cur) 1%nat Hrest) as (c & Hrun & Hobjs & Herr).
    exists c. split; [exact Hrun |]. split; [| exact Herr].
    rewrite Hobjs. cbn [replicate map]. rewrite <- app_assoc. reflexivity.
Qed.

Lemma run_loop_well_formed (doc : list instance) :
  Forall valid_instance doc ->
  exists c,
    Converter.run_loop (Converter.init object_tag) (doc_tokens doc) = Ok c /\
    Converter.objects c = map record_of doc /\
    Converter.error_stream c = [].
Proof.
  intros Hall.
  destruct (doc_steps doc 0 (XMLObject.init object_tag) [] 0%nat Hall)
    as (c & Hrun & Hobjs & Herr).
  exists c. split; [exact Hrun |]. split; [exact Hobjs | exact Herr].
Qed.

(** ** Converter.convert on the records of a well-formed input *)

Lemma slots_shaped_fields (fs : list field) :
  slots_shaped (concat (map (fun _ => triple) fs))
               (concat (map (fun g : field => [Some g.1.1; Some g.1.2; Some g.2]) fs))
               (map field_group fs).
Proof.
  induction fs as [|f fs IH]; simpl; [constructor |].
  apply shaped_group. exact IH.
Qed.

Lemma record_of_shaped (i : instance) :
  i.2 <> [] -> record_shaped (record_of i) (Some i.1) (map field_group i.2).
Proof.
  destruct i as [nm [|f fs]]; [intros H; contradiction |]. intros _.
  eexists _, _. split; [reflexivity |]. split; [reflexivity |].
  apply (slots_shaped_fields (f :: fs)).
Qed.

Lemma valid_group (number : Z) (f : field) :
  valid_field f ->
  group_lines (field_group f) = [Converter.field_line f.1.1 f.1.2 f.2] /\
  group_errors number (field_group f) = [].
Proof.
  intros (_ & _ & Htype). destruct f as [[f_name f_type] f_value]. simpl in *.
  assert (int_not_digits f_type f_value = false) as ->; [| split; reflexivity].
  unfold int_not_digits. destruct Htype as [[-> ->] | ->]; reflexivity.
Qed.

Lemma valid_groups (number : Z) (fs : list field) :
  Forall valid_field fs ->
  concat (map group_lines (map field_group fs)) =
    map (fun f : field => Converter.field_line f.1.1 f.1.2 f.2) fs /\
  concat (map (group_errors number) (map field_group fs)) = [].
Proof.
  induction 1 as [|f fs Hf _ [IHl IHe]]; [split; reflexivity |].
  destruct (valid_group number f Hf) as [Hl He].
  cbn [map concat]. rewrite Hl, He, IHl, IHe. split; reflexivity.
Qed.

Lemma convert_instance fuel (i : instance) number l :
  valid_instance i ->
  i.1 ∉ Converter.object_names l ->
  (length i.2 < fuel)%nat ->
  Converter.convert_object fuel (record_of i) number l =
  Some (Ok {| Converter.conv := Converter.conv l;
              Converter.json := Converter.json l ++ instance_lines i;
              Converter.object_names := Converter.object_names l ++ [i.1] |}).
Proof.
  intros (_ & Hne & Hfields) Hnew Hfuel.
  rewrite (convert_object_shaped _ i.1 (map field_group i.2));
    [| apply record_of_shaped, Hne | exact Hnew | rewrite length_map; exact Hfuel].
  destruct (valid_groups number i.2 Hfields) as [Hl He].
  do 2 f_equal. unfold fields_result, entry_lines, instance_lines.
  rewrite Hl, He. destruct i as [nm [|f fs]]; [contradiction |]. reflexivity.
Qed.

Lemma convert_instances fuel (doc : list instance) :
  forall number l,
    Forall valid_instance doc ->
    NoDup (map fst doc) ->
    (forall i, i ∈ doc -> i.1 ∉ Converter.object_names l) ->
    Forall (fun i : instance => (length i.2 < fuel)%nat) doc ->
    Converter.convert_objects fuel (map record_of doc) number l =
    Some (Ok {| Converter.conv := Converter.conv l;
                Converter.json := Converter.json l ++ concat (map instance_lines doc);
                Converter.object_names := Converter.object_names l ++ map fst doc |}).
Proof.
  induction doc as [|i doc IH]; intros number l Hvalid Hnodup Hnew Hfuel.
  - simpl. rewrite !app_nil_r. destruct l; reflexivity.
  - inversion Hvalid as [|? ? Hi Hrest]; subst.
    inversion Hfuel as [|? ? Hfi Hfrest]; subst.
    apply NoDup_cons in Hnodup as [Hnotin Hnodup].
    cbn [map Converter.convert_objects].
    rewrite convert_instance; [| exact Hi | apply Hnew; left | exact Hfi].
    rewrite IH; [| exact Hrest | exact Hnodup | | exact Hfrest].
    + cbn [Converter.conv Converter.json Converter.object_names map concat].
      rewrite <- !app_assoc. reflexivity.
    + intros j Hj. cbn [Converter.object_names]. intros Hin. apply elem_of_app in Hin as [Hin | Hin].
      * apply (Hnew j); [right; exact Hj | exact Hin].
      * apply list_elem_of_singleton in Hin. apply Hnotin. rewrite <- Hin.
        apply list_elem_of_fmap_2. exact Hj.
Qed.

(** ** Strings *)

Lemma str_app_assoc (a b c : string) : (a +:+ b) +:+ c = a +:+ (b +:+ c).
Proof.
  induction a as [|x a IH]; [reflexivity |].
  change (String x ((a +:+ b) +:+ c) = String x (a +:+ (b +:+ c))). rewrite IH. reflexivity.
Qed.

Lemma str_app_length (a b : string) :
  String.length (a +:+ b) = (String.length a + String.length b)%nat.
Proof.
  induction a as [|x a IH]; [reflexivity |].
  change (S (String.length (a +:+ b)) = S (String.length a + String.length b)).
  rewrite IH. reflexivity.
Qed.

Lemma char_in_app (c : ascii) (a b : string) :
  Py.char_in c (a +:+ b) = Py.char_in c a || Py.char_in c b.
Proof.
  unfold Py.char_in. induction a as [|x a IH]; [reflexivity |].
  change (Ascii.eqb c x || Py.any_char (Ascii.eqb c) (a +:+ b) =
          Ascii.eqb c x || Py.any_char (Ascii.eqb c) a || Py.any_char (Ascii.eqb c) b).
  rewrite IH, orb_assoc. reflexivity.
Qed.

Lemma remove_char_fuel_prefix (c : ascii) count (pre s : string) :
  Py.char_in c pre = false ->
  Py.remove_char_fuel c count (pre +:+ s) = pre +:+ Py.remove_char_fuel c count s.
Proof.
  unfold Py.char_in. induction pre as [|x pre IH]; [reflexivity |].
  intros H. simpl in H. apply orb_false_iff in H as [Hx Hpre].
  change (Py.remove_char_fuel c count (String x (pre +:+ s)) =
          String x (pre +:+ Py.remove_char_fuel c count s)).
  simpl. rewrite Ascii.eqb_sym, Hx, IH by exact Hpre. reflexivity.
Qed.

Lemma remove_last_comma (pre : string) :
  comma_free pre ->
  (1 <= String.length pre)%nat ->
  Py.remove_char "," (Py.len (pre +:+ "," +:+ Py.nl) - 2) (pre +:+ "," +:+ Py.nl) =
  pre +:+ Py.nl.
Proof.
  intros Hfree Hlen. unfold Py.remove_char, Py.len.
  rewrite str_app_length. change (String.length ("," +:+ Py.nl)) with 2%nat.
  destruct (Z.ltb_spec (Z.of_nat (String.length pre + 2) - 2) 0); [lia |].
  replace (Z.to_nat (Z.of_nat (String.length pre + 2) - 2)) with (String.length pre) by lia.
  rewrite remove_char_fuel_prefix by exact Hfree.
  destruct (String.length pre) as [|k]; [lia |]. reflexivity.
Qed.

(** ** Converter.flush on the lines of a well-formed input *)

Lemma quote_of_comma_free (t : string) : comma_free (Converter.quote_of t).
Proof. unfold Converter.quote_of. case_decide; reflexivity. Qed.

Lemma strip_last_field (f : field) :
  comma_free f.1.1 -> comma_free f.2 ->
  Py.remove_char ","
    (Py.len (Converter.field_line f.1.1 f.1.2 f.2) - 2)
    (Converter.field_line f.1.1 f.1.2 f.2) =
  written_field true f.
Proof.
  intros Hn Hv.
  pose (pre := Py.tab +:+ Py.tab +:+ Py.dq +:+ f.1.1 +:+ Py.dq +:+ ": " +:+
               Converter.quote_of f.1.2 +:+ f.2 +:+ Converter.quote_of f.1.2).
  assert (Converter.field_line f.1.1 f.1.2 f.2 = pre +:+ "," +:+ Py.nl) as ->
    by (unfold pre, Converter.field_line; rewrite !str_app_assoc; reflexivity).
  assert (written_field true f = pre +:+ Py.nl) as ->
    by (unfold pre, written_field; rewrite !str_app_assoc; reflexivity).
  apply remove_last_comma.
  - unfold comma_free, pre. rewrite !char_in_app, Hn, Hv.
    rewrite (quote_of_comma_free f.1.2). reflexivity.
  - unfold pre. rewrite str_app_length. simpl. lia.
Qed.

Lemma field_line_kept (f_name f_type f_value : string) :
  Converter.field_line f_name f_type f_value ∉ Converter.no_trailing_comma.
Proof.
  intros H. apply elem_of_cons in H as [H | H].
  - apply (f_equal (String.get 0)) in H. discriminate H.
  - apply list_elem_of_singleton in H. apply (f_equal (String.get 1)) in H. discriminate H.
Qed.

Lemma header_line_kept (name : string) :
  Converter.header_line name ∉ Converter.no_trailing_comma.
Proof.
  intros H. apply elem_of_cons in H as [H | H].
  - apply (f_equal (String.get 0)) in H. discriminate H.
  - apply list_elem_of_singleton in H. apply (f_equal (String.get 2)) in H. discriminate H.
Qed.

Lemma flush_loop_kept (s2 next : string) (js : list string) :
  next ∉ Converter.no_trailing_comma ->
  Converter.flush_loop s2 (next :: js) = s2 :: Converter.flush_loop next js.
Proof. intros H. cbn [Converter.flush_loop]. rewrite decide_False by exact H. reflexivity. Qed.

Lemma flush_loop_stripped (s2 next : string) (js : list string) :
  next ∈ Converter.no_trailing_comma ->
  Converter.flush_loop s2 (next :: js) =
  Py.remove_char "," (Py.len s2 - 2) s2 :: Converter.flush_loop next js.
Proof. intros H. cbn [Converter.flush_loop]. rewrite decide_True by exact H. reflexivity. Qed.

Lemma flush_fields (fs : list field) :
  forall (f0 : field) rest,
    last_field_comma_free (EmptyString, f0 :: fs) ->
    Converter.flush_loop (Converter.field_line f0.1.1 f0.1.2 f0.2)
      (map (fun f : field => Converter.field_line f.1.1 f.1.2 f.2) fs ++
       Converter.close_line :: rest) =
    written_fields (f0 :: fs) ++ Converter.flush_loop Converter.close_line rest.
Proof.
  induction fs as [|f1 fs IH]; intros f0 rest Hfree.
  - cbn [map app written_fields].
    rewrite flush_loop_stripped by (right; left).
    unfold last_field_comma_free in Hfree. simpl in Hfree.
    rewrite strip_last_field by tauto. reflexivity.
  - cbn [map app]. rewrite flush_loop_kept by apply field_line_kept.
    rewrite IH by exact Hfree. reflexivity.
Qed.

Lemma flush_instances (doc : list instance) :
  forall (i : instance),
    Forall valid_instance (i :: doc) ->
    Forall last_field_comma_free (i :: doc) ->
    Converter.flush_loop (Converter.header_line i.1)
      (map (fun f : field => Converter.field_line f.1.1 f.1.2 f.2) i.2 ++
       Converter.close_line :: concat (map instance_lines doc) ++ ["}"]) =
    written_instances (i :: doc) ++ ["}"].
Proof.
  induction doc as [|j doc IH]; intros i Hvalid Hfree;
    inversion Hvalid as [|? ? (_ & Hne & _) Hvrest]; subst;
    inversion Hfree as [|? ? Hfi Hfrest]; subst;
    destruct i as [nm [|f0 fs]]; try contradiction; cbn [fst snd] in *;
    cbn [map app]; rewrite flush_loop_kept by apply field_line_kept;
    rewrite flush_fields by exact Hfi.
  - cbn [map concat app written_instances written_instance fst snd].
    rewrite flush_loop_stripped by left. rewrite <- !app_assoc. reflexivity.
  - cbn [map concat]. unfold instance_lines at 1. cbn [app].
    rewrite flush_loop_kept by apply header_line_kept.
    rewrite <- !app_assoc. cbn [app]. rewrite (IH j Hvrest Hfrest).
    change (written_instances ((nm, f0 :: fs) :: j :: doc))
      with (written_instance false (nm, f0 :: fs) ++ written_instances (j :: doc)).
    generalize (written_instances (j :: doc)). intros W.
    unfold written_instance, written_close. cbn [fst snd app].
    rewrite <- !app_assoc. reflexivity.
Qed.

Lemma flush_well_formed (c : Converter.t) (doc : list instance) :
  doc <> [] ->
  Forall valid_instance doc ->
  Forall last_field_comma_free doc ->
  Converter.flush c (("{" +:+ Py.nl) :: concat (map instance_lines doc) ++ ["}"]) =
  Some (c, Converter.Written (written doc)).
Proof.
  intros Hne Hvalid Hfree. destruct doc as [|i doc]; [contradiction |].
  pose proof (flush_instances doc i Hvalid Hfree) as Hloop.
  inversion Hvalid as [|? ? (_ & Hfs & _) _]; subst.
  destruct i as [nm [|f0 fs]]; [contradiction |].
  cbn [map concat fst snd] in *. unfold instance_lines at 1. cbn [fst snd map app] in *.
  unfold Converter.flush. rewrite <- !app_assoc. cbn [app].
  rewrite Hloop. reflexivity.
Qed.

(** ** Parser.run on a well-spelled text *)

Lemma same_but_counter_refl p : same_but_counter p p.
Proof. repeat split. Qed.

Lemma same_but_counter_trans p1 p2 p3 :
  same_but_counter p1 p2 -> same_but_counter p2 p3 -> same_but_counter p1 p3.
Proof. unfold same_but_counter. intros (?&?&?&?) (?&?&?&?). repeat split; congruence. Qed.

Lemma read_char_same p c rest :
  same_but_counter p (Parser.read_char p (String c rest)).1.2.
Proof. repeat split. Qed.

Lemma str_app_nil_r (a : string) : a +:+ EmptyString = a.
Proof.
  induction a as [|y a IH]; [reflexivity |].
  change (String y (a +:+ EmptyString) = String y a). rewrite IH. reflexivity.
Qed.

Lemma read_tag_shaped (body : string) :
  forall p text acc,
    Py.char_in ">" body = false ->
    exists p',
      Parser.read_tag p (body +:+ ">" +:+ text) acc = (acc +:+ body +:+ ">", p', text, false) /\
      same_but_counter p p'.
Proof.
  unfold Py.char_in. induction body as [|x body IH]; intros p text acc Hfree.
  - exists (Parser.read_char p (String ">" text)).1.2.
    split; [reflexivity | apply read_char_same].
  - cbn [Py.any_char] in Hfree. apply orb_false_iff in Hfree as [Hx Hbody].
    change (String x body +:+ ">" +:+ text) with (String x (body +:+ ">" +:+ text)).
    cbn [Parser.read_tag]. rewrite Ascii.eqb_sym, Hx.
    destruct (IH (Parser.read_char p (String x (body +:+ ">" +:+ text))).1.2 text
                (acc +:+ String x EmptyString) Hbody) as (p' & -> & Hsame).
    exists p'. split.
    + rewrite str_app_assoc. reflexivity.
    + eapply same_but_counter_trans; [apply read_char_same | exact Hsame].
Qed.

Lemma read_text_until (v : string) :
  forall p text acc,
    Py.char_in "<" v = false ->
    exists p',
      Parser.read_text p (v +:+ String "<" text) acc = (acc +:+ v, p', text, false) /\
      same_but_counter p p'.
Proof.
  unfold Py.char_in. induction v as [|x v IH]; intros p text acc Hfree.
  - exists (Parser.read_char p (String "<" text)).1.2.
    split; [rewrite str_app_nil_r; reflexivity | apply read_char_same].
  - cbn [Py.any_char] in Hfree. apply orb_false_iff in Hfree as [Hx Hv].
    change (String x v +:+ String "<" text) with (String x (v +:+ String "<" text)).
    cbn [Parser.read_text]. rewrite Ascii.eqb_sym, Hx.
    destruct (IH (Parser.read_char p (String x (v +:+ String "<" text))).1.2 text
                (acc +:+ String x EmptyString) Hv) as (p' & -> & Hsame).
    exists p'. split.
    + rewrite str_app_assoc. reflexivity.
    + eapply same_but_counter_trans; [apply read_char_same | exact Hsame].
Qed.

Lemma read_text_eof (v : string) :
  forall p acc,
    Py.char_in "<" v = false ->
    exists p',
      Parser.read_text p v acc = (acc +:+ v, p', EmptyString, true) /\
      same_but_counter p p'.
Proof.
  unfold Py.char_in. induction v as [|x v IH]; intros p acc Hfree.
  - exists p. split; [| apply same_but_counter_refl].
    rewrite str_app_nil_r. reflexivity.
  - cbn [Py.any_char] in Hfree. apply orb_false_iff in Hfree as [Hx Hv].
    cbn [Parser.read_text]. rewrite Ascii.eqb_sym, Hx.
    destruct (IH (Parser.read_char p (String x v)).1.2
                (acc +:+ String x EmptyString) Hv) as (p' & -> & Hsame).
    exists p'. split.
    + rewrite str_app_assoc. reflexivity.
    + eapply same_but_counter_trans; [apply read_char_same | exact Hsame].
Qed.

Lemma is_correct_tag_known p t :
  known_tag (Parser.value_tags p) (Parser.other_tags p) t ->
  Parser.is_correct_tag p t = (p, Ok true).
Proof.
  intros Hknown. unfold Parser.is_correct_tag.
  destruct (bool_decide (t ∈ Parser.value_tags p) || bool_decide (t ∈ Parser.other_tags p))
    eqn:Hdirect; [reflexivity |].
  apply orb_false_iff in Hdirect as [Hv Ho].
  apply bool_decide_eq_false in Hv, Ho.
  destruct Hknown as [H | [H | (m & -> & Hm)]]; [contradiction | contradiction |].
  destruct Hm as [Hm | Hm].
  - rewrite (bool_decide_eq_true_2 _ Hm). reflexivity.
  - rewrite (bool_decide_eq_true_2 _ Hm), orb_true_r. reflexivity.
Qed.

Lemma is_value_tag_same p p' t :
  same_but_counter p p' -> Parser.is_value_tag p' t = Parser.is_value_tag p t.
Proof. intros (_ & _ & Hv & _). unfold Parser.is_value_tag. rewrite Hv. reflexivity. Qed.

Lemma known_tag_same p p' t :
  same_but_counter p p' ->
  known_tag (Parser.value_tags p) (Parser.other_tags p) t ->
  known_tag (Parser.value_tags p') (Parser.other_tags p') t.
Proof. intros (_ & _ & -> & ->). tauto. Qed.

Lemma put_same p p' t :
  same_but_counter p p' -> same_but_counter (Parser.put p t) (Parser.put p' t).
Proof.
  intros (Hq & He & Hv & Ho). unfold same_but_counter, Parser.put. simpl.
  rewrite Hq, He, Hv, Ho. repeat split.
Qed.

Lemma space_not_lt (c : ascii) : Py.isspace_char c = true -> Ascii.eqb c "<" = false.
Proof. intros H. destruct (Ascii.eqb_spec c "<") as [-> |]; [discriminate | reflexivity]. Qed.

Lemma blank_no_lt (g : string) : blank g -> Py.char_in "<" g = false.
Proof.
  unfold blank, Py.strip_nonempty, Py.char_in.
  induction g as [|c g IH]; [reflexivity |]. cbn [Py.any_char].
  intros H. apply orb_false_iff in H as [Hc Hg].
  apply negb_false_iff in Hc. rewrite Ascii.eqb_sym, (space_not_lt c Hc).
  apply IH, Hg.
Qed.

(** The tag branch of a round that reads its first character itself. *)
Lemma run_tag_read fuel p body text ch rv :
  Py.char_in ">" body = false ->
  known_tag (Parser.value_tags p) (Parser.other_tags p) (String "<" (body +:+ ">")) ->
  exists p',
    Parser.run_loop (S fuel) p (String "<" (body +:+ ">") +:+ text) ch rv true =
    Parser.run_loop fuel (Parser.put p' (String "<" (body +:+ ">"))) text
      (Some ">"%char) (Parser.is_value_tag p (String "<" (body +:+ ">"))) true /\
    same_but_counter p p'.
Proof.
  intros Hbody Hknown.
  change (String "<" (body +:+ ">") +:+ text) with (String "<" ((body +:+ ">") +:+ text)).
  rewrite str_app_assoc.
  cbn [Parser.run_loop Parser.read_char]. cbv beta iota zeta.
  change (Ascii.eqb "<" "<") with true. cbv beta iota.
  destruct (read_tag_shaped body
              (Parser.read_char p (String "<" (body +:+ ">" +:+ text))).1.2
              text (String "<" EmptyString) Hbody) as (p' & Hread & Hsame).
  cbn [Parser.read_char fst snd] in Hread. rewrite Hread. cbv beta iota zeta.
  change (String "<" EmptyString +:+ body +:+ ">") with (String "<" (body +:+ ">")).
  assert (same_but_counter p p') as Hsame'.
  { eapply same_but_counter_trans; [| exact Hsame]. repeat split. }
  rewrite (is_correct_tag_known p') by (eapply known_tag_same; eassumption).
  cbv beta iota zeta. rewrite (is_value_tag_same p p') by exact Hsame'.
  exists p'. split; [reflexivity | exact Hsame'].
Qed.

(** The tag branch of a round that starts from the ["<"] kept by the round
    before. *)
Lemma run_tag_carried fuel p body text rv :
  Py.char_in ">" body = false ->
  known_tag (Parser.value_tags p) (Parser.other_tags p) (String "<" (body +:+ ">")) ->
  exists p',
    Parser.run_loop (S fuel) p ((body +:+ ">") +:+ text) (Some "<"%char) rv false =
    Parser.run_loop fuel (Parser.put p' (String "<" (body +:+ ">"))) text
      (Some ">"%char) (Parser.is_value_tag p (String "<" (body +:+ ">"))) true /\
    same_but_counter p p'.
Proof.
  intros Hbody Hknown. rewrite str_app_assoc.
  cbn [Parser.run_loop]. cbv beta iota zeta.
  change (Ascii.eqb "<" "<") with true. cbv beta iota.
  destruct (read_tag_shaped body p text (String "<" EmptyString) Hbody)
    as (p' & Hread & Hsame).
  rewrite Hread. cbv beta iota zeta.
  change (String "<" EmptyString +:+ body +:+ ">") with (String "<" (body +:+ ">")).
  rewrite (is_correct_tag_known p') by (eapply known_tag_same; eassumption).
  cbv beta iota zeta. rewrite (is_value_tag_same p p') by exact Hsame.
  exists p'. split; [reflexivity | exact Hsame].
Qed.

(** The value branch on white space where no value is expected. *)
Lemma run_gap fuel p c g rest ch :
  blank (String c g) ->
  exists p',
    Parser.run_loop (S fuel) p (String c g +:+ String "<" rest) ch false true =
    Parser.run_loop fuel p' rest (Some "<"%char) false false /\
    same_but_counter p p'.
Proof.
  intros Hblank. pose proof (blank_no_lt _ Hblank) as Hlt.
  unfold Py.char_in in Hlt. cbn [Py.any_char] in Hlt.
  apply orb_false_iff in Hlt as [Hc Hg]. rewrite Ascii.eqb_sym in Hc.
  change (String c g +:+ String "<" rest) with (String c (g +:+ String "<" rest)).
  cbn [Parser.run_loop Parser.read_char]. cbv beta iota zeta. rewrite Hc.
  destruct (read_text_until g
              (Parser.read_char p (String c (g +:+ String "<" rest))).1.2
              rest (String c EmptyString) Hg) as (p' & Hread & Hsame).
  cbn [Parser.read_char fst snd] in Hread. rewrite Hread. cbv beta iota zeta.
  change (String c EmptyString +:+ g) with (String c g).
  unfold blank in Hblank. rewrite Hblank.
  exists p'. split; [reflexivity |].
  eapply same_but_counter_trans; [| exact Hsame]. repeat split.
Qed.

(** The value branch on white space that ends the file. *)
Lemma run_gap_eof fuel p g ch :
  blank g ->
  exists p',
    Parser.run_loop (S fuel) p g ch false true = Some (p', Ok ()) /\
    same_but_counter p p'.
Proof.
  intros Hblank. destruct g as [|c g].
  - exists p. split; [reflexivity | apply same_but_counter_refl].
  - pose proof (blank_no_lt _ Hblank) as Hlt.
    unfold Py.char_in in Hlt. cbn [Py.any_char] in Hlt.
    apply orb_false_iff in Hlt as [Hc Hg]. rewrite Ascii.eqb_sym in Hc.
    cbn [Parser.run_loop Parser.read_char]. cbv beta iota zeta. rewrite Hc.
    destruct (read_text_eof g (Parser.read_char p (String c g)).1.2
                (String c EmptyString) Hg) as (p' & Hread & Hsame).
    cbn [Parser.read_char fst snd] in Hread. rewrite Hread. cbv beta iota zeta.
    change (String c EmptyString +:+ g) with (String c g).
    unfold blank in Hblank. rewrite Hblank.
    exists p'. split; [reflexivity |].
    eapply same_but_counter_trans; [| exact Hsame]. repeat split.
Qed.

(** The value branch on the value of a tag. *)
Lemma run_value fuel p v rest ch :
  legal_value v ->
  exists p',
    Parser.run_loop (S fuel) p (v +:+ String "<" rest) ch true true =
    Parser.run_loop fuel (Parser.put p' v) rest (Some "<"%char) false false /\
    same_but_counter p p'.
Proof.
  intros (Hne & Hill & Hprint & _). destruct v as [|c v]; [contradiction |].
  assert (Py.char_in "<" (String c v) = false) as Hlt.
  { clear -Hill. unfold Py.char_in. induction (String c v) as [|x s IH]; [reflexivity |].
    cbn [Py.any_char] in *. apply orb_false_iff in Hill as [Hx Hs].
    rewrite (IH Hs), orb_false_r.
    destruct (Ascii.eqb_spec "<" x) as [<- |]; [discriminate Hx | reflexivity]. }
  unfold Py.char_in in Hlt. cbn [Py.any_char] in Hlt.
  apply orb_false_iff in Hlt as [Hc Hv]. rewrite Ascii.eqb_sym in Hc.
  change (String c v +:+ String "<" rest) with (String c (v +:+ String "<" rest)).
  cbn [Parser.run_loop Parser.read_char]. cbv beta iota zeta. rewrite Hc.
  destruct (read_text_until v
              (Parser.read_char p (String c (v +:+ String "<" rest))).1.2
              rest (String c EmptyString) Hv) as (p' & Hread & Hsame).
  cbn [Parser.read_char fst snd] in Hread. rewrite Hread. cbv beta iota zeta.
  change (String c EmptyString +:+ v) with (String c v).
  unfold Parser.is_correct_value. rewrite Hill, Hprint. cbv beta iota zeta.
  exists p'. split; [reflexivity |].
  eapply same_but_counter_trans; [| exact Hsame]. repeat split.
Qed.

Lemma tag_shaped_length t : tag_shaped t -> (2 <= String.length t)%nat.
Proof.
  intros (body & -> & _). cbn [String.length]. rewrite str_app_length. simpl. lia.
Qed.

(** White space and a tag, from a round that reads its first character. *)
Lemma lex_tag fuel p g t text ch :
  blank g ->
  tag_shaped t ->
  known_tag (Parser.value_tags p) (Parser.other_tags p) t ->
  (String.length (g +:+ t +:+ text) < fuel)%nat ->
  exists fuel' p',
    (String.length text < fuel')%nat /\
    Parser.run_loop fuel p (g +:+ t +:+ text) ch false true =
    Parser.run_loop fuel' (Parser.put p' t) text (Some ">"%char)
      (Parser.is_value_tag p t) true /\
    same_but_counter p p'.
Proof.
  intros Hblank Htag Hknown Hfuel.
  pose proof (tag_shaped_length t Htag) as Hlen.
  rewrite !str_app_length in Hfuel.
  destruct Htag as (body & -> & Hbody).
  destruct g as [|c g].
  - destruct fuel as [|fuel]; [lia |].
    destruct (run_tag_read fuel p body text ch false Hbody Hknown) as (p' & Hrun & Hsame).
    exists fuel, p'. split; [simpl in Hfuel; lia |]. split; [exact Hrun | exact Hsame].
  - destruct fuel as [|[|fuel]]; [lia | simpl in Hfuel; lia |].
    destruct (run_gap (S fuel) p c g ((body +:+ ">") +:+ text) ch Hblank)
      as (p1 & Hrun1 & Hsame1).
    destruct (run_tag_carried fuel p1 body text false Hbody
                (known_tag_same p p1 _ Hsame1 Hknown)) as (p2 & Hrun2 & Hsame2).
    exists fuel, p2. split; [simpl in Hfuel; lia |]. split.
    + change (String c g +:+ String "<" (body +:+ ">") +:+ text)
        with (String c g +:+ String "<" ((body +:+ ">") +:+ text)).
      rewrite Hrun1, Hrun2. rewrite (is_value_tag_same p p1) by exact Hsame1. reflexivity.
    + eapply same_but_counter_trans; eassumption.
Qed.

(** The lexer queues the strings a text spells and reports nothing. *)
Lemma lex_spells vt ot tokens text :
  spells vt ot tokens text ->
  forall fuel p ch,
    Parser.value_tags p = vt ->
    Parser.other_tags p = ot ->
    (String.length text < fuel)%nat ->
    exists p',
      Parser.run_loop fuel p text ch false true = Some (p', Ok ()) /\
      Parser.queue p' = Parser.queue p ++ tokens /\
      Parser.error_stream p' = Parser.error_stream p.
Proof.
  induction 1 as [g Hg
                 |g t tokens text Hg Ht Hnv Hknown _ IH
                 |g t v closing tokens text Hg Ht Hv Hlegal Hc Hcnv Hcknown _ IH];
    intros fuel p ch Hvt Hot Hfuel.
  - destruct fuel as [|fuel]; [lia |].
    destruct (run_gap_eof fuel p g ch Hg) as (p' & Hrun & Hq & He & _).
    exists p'. split; [exact Hrun |]. rewrite Hq, He, app_nil_r. split; reflexivity.
  - subst vt ot.
    destruct (lex_tag fuel p g t text ch Hg Ht Hknown Hfuel)
      as (fuel' & p' & Hfuel' & Hrun & Hq & He & Hv' & Ho').
    assert (Parser.is_value_tag p t = false) as Hnot
      by (apply bool_decide_eq_false; exact Hnv).
    rewrite Hrun, Hnot.
    destruct (IH fuel' (Parser.put p' t) (Some ">"%char) Hv' Ho' Hfuel')
      as (p'' & Hrun' & Hq' & He').
    exists p''. split; [exact Hrun' |]. simpl in Hq', He'.
    rewrite Hq', He', Hq, He, <- app_assoc. split; reflexivity.
  - subst vt ot.
    assert (String.length (g +:+ t +:+ v +:+ closing +:+ text) < fuel)%nat as Hfuel1
      by exact Hfuel.
    destruct (lex_tag fuel p g t (v +:+ closing +:+ text) ch Hg Ht
                (or_introl Hv) Hfuel1)
      as (fuel1 & p1 & Hfuel2 & Hrun1 & Hsame1).
    assert (Parser.is_value_tag p t = true) as Hyes
      by (apply bool_decide_eq_true; exact Hv).
    rewrite Hrun1, Hyes.
    pose proof (tag_shaped_length closing Hc) as Hclen.
    destruct Hc as (cbody & -> & Hcbody).
    rewrite !str_app_length in Hfuel2.
    assert (1 <= String.length v)%nat as Hvlen
      by (destruct Hlegal as (Hne & _); destruct v; [contradiction | simpl; lia]).
    destruct fuel1 as [|[|fuel2]]; [lia | lia |].
    change (v +:+ String "<" (cbody +:+ ">") +:+ text)
      with (v +:+ String "<" ((cbody +:+ ">") +:+ text)).
    destruct (run_value (S fuel2) (Parser.put p1 t) v ((cbody +:+ ">") +:+ text)
                (Some ">"%char) Hlegal) as (p2 & Hrun2 & Hsame2).
    rewrite Hrun2.
    assert (known_tag (Parser.value_tags (Parser.put p2 v))
              (Parser.other_tags (Parser.put p2 v)) (String "<" (cbody +:+ ">")))
      as Hcknown'.
    { destruct Hsame1 as (_ & _ & Hv1 & Ho1). destruct Hsame2 as (_ & _ & Hv2 & Ho2).
      simpl in *. rewrite Hv2, Ho2, Hv1, Ho1. exact Hcknown. }
    destruct (run_tag_carried fuel2 (Parser.put p2 v) cbody text false Hcbody Hcknown')
      as (p3 & Hrun3 & Hsame3).
    rewrite Hrun3.
    assert (Parser.is_value_tag (Parser.put p2 v) (String "<" (cbody +:+ ">")) = false)
      as Hnot.
    { apply bool_decide_eq_false.
      destruct Hsame1 as (_ & _ & Hv1 & _). destruct Hsame2 as (_ & _ & Hv2 & _).
      simpl in *. rewrite Hv2, Hv1. exact Hcnv. }
    rewrite Hnot.
    destruct Hsame1 as (Hq1 & He1 & Hv1 & Ho1).
    destruct Hsame2 as (Hq2 & He2 & Hv2 & Ho2).
    destruct Hsame3 as (Hq3 & He3 & Hv3 & Ho3).
    simpl in *.
    destruct (IH fuel2 (Parser.put p3 (String "<" (cbody +:+ ">"))) (Some ">"%char))
      as (p4 & Hrun4 & Hq4 & He4).
    + simpl. congruence.
    + simpl. congruence.
    + lia.
    + exists p4. split; [exact Hrun4 |]. simpl in Hq4, He4.
      rewrite Hq4, He4, Hq3, He3, Hq2, He2, Hq1, He1, <- !app_assoc.
      split; reflexivity.
Qed.

(** ** The text of a well-formed document *)

Ltac decide_it := apply (bool_decide_unpack _); vm_compute; exact I.

Ltac shaped body := exists body; split; reflexivity.

Ltac known_closing :=
  right; right; eexists; split; [reflexivity | first [left; decide_it | right; decide_it]].

Lemma spells_field gap (f : field) tokens text :
  blank gap ->
  valid_field f ->
  spells bundled_value_tags bundled_other_tags tokens text ->
  spells bundled_value_tags bundled_other_tags
    (field_tokens f ++ tokens) (field_text gap f +:+ text).
Proof.
  intros Hgap (Hname & Hvalue & Htype) Hrest.
  assert (legal_value f.1.2) as Hlt
    by (destruct Htype as [[-> _] | ->]; auto using legal_int, legal_string).
  unfold field_text, field_tokens. rewrite !str_app_assoc. cbn [app].
  apply spells_tag; [exact Hgap | shaped "field" | decide_it | right; left; decide_it |].
  apply spells_leaf; [exact Hgap | shaped "name" | decide_it | exact Hname
                     | shaped "/name" | decide_it | known_closing |].
  apply spells_leaf; [exact Hgap | shaped "type" | decide_it | exact Hlt
                     | shaped "/type" | decide_it | known_closing |].
  apply spells_leaf; [exact Hgap | shaped "value" | decide_it | exact Hvalue
                     | shaped "/value" | decide_it | known_closing |].
  apply spells_tag; [exact Hgap | shaped "/field" | decide_it | known_closing |].
  exact Hrest.
Qed.

Lemma foldr_text_app {A} (f : A -> string) (l : list A) (base rest : string) :
  foldr (fun x r => f x +:+ r) base l +:+ rest =
  foldr (fun x r => f x +:+ r) (base +:+ rest) l.
Proof.
  induction l as [|x l IH]; [reflexivity |].
  cbn [foldr]. rewrite str_app_assoc, IH. reflexivity.
Qed.

Lemma spells_fields gap (fs : list field) tokens text :
  blank gap ->
  Forall valid_field fs ->
  spells bundled_value_tags bundled_other_tags tokens text ->
  spells bundled_value_tags bundled_other_tags
    (concat (map field_tokens fs) ++ tokens)
    (foldr (fun f r => field_text gap f +:+ r) text fs).
Proof.
  intros Hgap Hall Hrest. induction Hall as [|f fs Hf _ IH]; [exact Hrest |].
  cbn [map concat foldr]. rewrite <- app_assoc.
  apply spells_field; assumption.
Qed.

Lemma spells_instance gap (i : instance) tokens text :
  blank gap ->
  valid_instance i ->
  spells bundled_value_tags bundled_other_tags tokens text ->
  spells bundled_value_tags bundled_other_tags
    (instance_tokens i ++ tokens) (instance_text gap i +:+ text).
Proof.
  intros Hgap (Hname & _ & Hfields) Hrest.
  unfold instance_text, instance_tokens. rewrite !str_app_assoc. cbn [app].
  rewrite foldr_text_app, str_app_assoc.
  apply spells_tag; [exact Hgap | shaped "object" | decide_it | right; left; decide_it |].
  apply spells_leaf; [exact Hgap | shaped "obj_name" | decide_it | exact Hname
                     | shaped "/obj_name" | decide_it | known_closing |].
  rewrite <- app_assoc. apply spells_fields; [exact Hgap | exact Hfields |].
  apply spells_tag; [exact Hgap | shaped "/object" | decide_it | known_closing |].
  exact Hrest.
Qed.

Lemma spells_doc_text gap (doc : list instance) :
  blank gap ->
  Forall valid_instance doc ->
  spells bundled_value_tags bundled_other_tags (doc_tokens doc) (doc_text gap doc).
Proof.
  intros Hgap Hall. induction Hall as [|i doc Hi _ IH].
  - apply spells_end. exact Hgap.
  - unfold doc_tokens, doc_text. cbn [map concat foldr].
    apply spells_instance; assumption.
Qed.

(** ** The whole run on a well-formed input *)




(** ** The rounds of Parser.run are enough *)

Lemma read_tag_shorter (file : string) :
  forall p acc t p' rest eof,
    Parser.read_tag p file acc = (t, p', rest, eof) ->
    eof = true \/ (String.length rest < String.length file)%nat.
Proof.
  induction file as [|c file IH]; intros p acc t p' rest eof; cbn [Parser.read_tag].
  - intros [= _ _ _ <-]. left. reflexivity.
  - destruct (Ascii.eqb c ">").
    + intros [= _ _ <- _]. right. simpl. lia.
    + intros H. destruct (IH _ _ _ _ _ _ H) as [? | ?]; [left; assumption | right; simpl; lia].
Qed.

Lemma read_text_shorter (file : string) :
  forall p acc t p' rest eof,
    Parser.read_text p file acc = (t, p', rest, eof) ->
    eof = true \/ (String.length rest < String.length file)%nat.
Proof.
  induction file as [|c file IH]; intros p acc t p' rest eof; cbn [Parser.read_text].
  - intros [= _ _ _ <-]. left. reflexivity.
  - destruct (Ascii.eqb c "<").
    + intros [= _ _ <- _]. right. simpl. lia.
    + intros H. destruct (IH _ _ _ _ _ _ H) as [? | ?]; [left; assumption | right; simpl; lia].
Qed.

Lemma run_loop_enough_fuel (fuel : nat) :
  forall p file ch rv rnc,
    (String.length file < fuel)%nat ->
    exists r, Parser.run_loop fuel p file ch rv rnc = Some r.
Proof.
  induction fuel as [|fuel IH]; intros p file ch rv rnc Hfuel; [lia |].
  cbn [Parser.run_loop].
  assert (exists ch1 p1 file1,
            (if rnc then Parser.read_char p file else (ch, p, file)) = (ch1, p1, file1) /\
            (String.length file1 <= String.length file)%nat) as (ch1 & p1 & file1 & -> & Hlen).
  { destruct rnc; [| eexists _, _, _; split; [reflexivity | lia]].
    destruct file as [|c file]; eexists _, _, _; (split; [reflexivity | simpl; lia]). }
  destruct ch1 as [c|]; [| eexists; reflexivity].
  destruct (Ascii.eqb c "<").
  - destruct (Parser.read_tag p1 file1 (String c EmptyString)) as [[[t p2] rest] eof] eqn:Hread.
    destruct (Parser.is_correct_tag p2 t) as [p3 [correct|e]]; [| eexists; reflexivity].
    destruct eof; [eexists; reflexivity |].
    destruct (read_tag_shorter _ _ _ _ _ _ _ Hread) as [? | Hshort]; [discriminate |].
    apply IH. lia.
  - destruct (Parser.read_text p1 file1 (String c EmptyString)) as [[[t p2] rest] eof] eqn:Hread.
    destruct eof; [eexists; reflexivity |].
    destruct (read_text_shorter _ _ _ _ _ _ _ Hread) as [? | Hshort]; [discriminate |].
    apply IH. lia.
Qed.

(** [Parser.run] comes to an end on every file. *)
Lemma parser_run_total (p : Parser.t) (file : string) :
  exists r, Parser.run p file = Some r.
Proof. apply run_loop_enough_fuel. lia. Qed.

(** ** Every record of the bundled schema has the shape [convert] expects *)

Lemma slots_shaped_app ts vs gs ts' vs' gs' :
  slots_shaped ts vs gs -> slots_shaped ts' vs' gs' ->
  slots_shaped (ts ++ ts') (vs ++ vs') (gs ++ gs').
Proof.
  induction 1 as [| f_name f_type f_value ts vs gs _ IH | x ts vs gs _ IH]; intros H';
    [exact H' | apply shaped_group, IH, H' | apply shaped_obj_name, IH, H'].
Qed.

Lemma slots_shaped_insert ts vs gs :
  slots_shaped ts vs gs ->
  forall i x, exists gs', slots_shaped ts (<[i := x]> vs) gs' /\ length gs' = length gs.
Proof.
  induction 1 as [| f_name f_type f_value ts vs gs Hs IH | y ts vs gs Hs IH]; intros i x.
  - exists []. split; [constructor | reflexivity].
  - destruct i as [|[|[|i]]]; cbn [insert list_insert].
    + eexists. split; [apply shaped_group, Hs | reflexivity].
    + eexists. split; [apply shaped_group, Hs | reflexivity].
    + eexists. split; [apply shaped_group, Hs | reflexivity].
    + destruct (IH i x) as (gs' & Hs' & Hlen).
      eexists. split; [apply shaped_group, Hs' | simpl; rewrite Hlen; reflexivity].
  - destruct i as [|i]; cbn [insert list_insert].
    + eexists. split; [apply shaped_obj_name, Hs | reflexivity].
    + destruct (IH i x) as (gs' & Hs' & Hlen).
      eexists. split; [apply shaped_obj_name, Hs' | exact Hlen].
Qed.

Lemma slots_shaped_length ts vs gs :
  slots_shaped ts vs gs -> length ts = length vs /\ (length gs <= length ts)%nat.
Proof.
  induction 1 as [| ? ? ? ? ? ? _ [IH1 IH2] | ? ? ? ? _ [IH1 IH2]]; simpl; split; lia.
Qed.

Lemma bundled_insert (o : XMLObject.t) i x :
  bundled_record o ->
  bundled_record
    {| XMLObject.structure := XMLObject.structure o; XMLObject.tags := XMLObject.tags o;
       XMLObject.values := <[i := x]> (XMLObject.values o) |}.
Proof.
  intros (Hst & name & gs & ts & vs & Ht & Hv & Hs). split; [exact Hst |].
  cbn [XMLObject.tags XMLObject.values]. rewrite Hv.
  destruct i as [|i]; cbn [insert list_insert].
  - exists x, gs, ts, vs. repeat split; assumption.
  - destruct (slots_shaped_insert _ _ _ Hs i x) as (gs' & Hs' & _).
    exists name, gs', ts, (<[i := x]> vs). repeat split; assumption.
Qed.

Lemma bundled_store (o : XMLObject.t) index node tag v :
  bundled_record o ->
  bundled_record (XMLObject.store_value o index node tag v).1.1.
Proof.
  intros H. unfold XMLObject.store_value.
  destruct node as [[n par]|]; [| exact H].
  destruct (allowed_values n); repeat case_decide; cbn [fst];
    try exact H; apply bundled_insert, H.
Qed.

Lemma bundled_parent tag node p :
  XMLObject.tag_to_node None object_tag tag = Some (node, Some p) ->
  p = object_tag \/ p = field_tag.
Proof.
  unfold object_tag, field_tag. cbn [XMLObject.tag_to_node].
  repeat case_decide; intros [= <- <-] || intros [=]; auto.
Qed.

Lemma bundled_build (o : XMLObject.t) p :
  p = object_tag \/ p = field_tag ->
  bundled_record o -> bundled_record (XMLObject.build o p).
Proof.
  intros Hp (Hst & name & gs & ts & vs & Ht & Hv & Hs).
  destruct (build_tags_values o p) as (Ht' & Hv' & Hst').
  split; [congruence |]. unfold record_shaped. rewrite Ht', Hv', Ht, Hv.
  destruct Hp as [-> | ->].
  - exists name, (gs ++ [(None, None, None)]), (ts ++ "<obj_name>" :: triple),
           (vs ++ [None; None; None; None]).
    repeat split. apply slots_shaped_app; [exact Hs |]. repeat constructor.
  - exists name, (gs ++ [(None, None, None)]), (ts ++ triple), (vs ++ [None; None; None]).
    repeat split. apply slots_shaped_app; [exact Hs |]. repeat constructor.
Qed.

Lemma bundled_set_value (o : XMLObject.t) tag v :
  bundled_record o -> bundled_record (XMLObject.set_value o tag v).1.1.
Proof.
  intros H. pose proof H as (Hst & _). unfold XMLObject.set_value.
  destruct (last_index (XMLObject.tags o) tag) as [index|e]; [| exact H].
  destruct (XMLObject.values o !! index) as [[old|]|]; [| | exact H].
  - rewrite Hst.
    destruct (XMLObject.tag_to_node None object_tag tag) as [[n [par|]]|] eqn:Hnode;
      try exact H.
    destruct (repeatable par); [| exact H].
    pose proof (bundled_build o par (bundled_parent _ _ _ Hnode) H) as Hb.
    destruct (last_index (XMLObject.tags (XMLObject.build o par)) tag); [| exact Hb].
    apply bundled_store, Hb.
  - apply bundled_store, H.
Qed.

(** The records a converter of the bundled schema can hold are the shaped
    ones, and the field loop of [convert] needs fewer rounds than they have
    slots. *)
Lemma reachable_record_shaped (o : XMLObject.t) :
  record_reachable object_tag o ->
  exists name gs,
    record_shaped o name gs /\ (length gs < length (XMLObject.tags o))%nat.
Proof.
  intros Hreach.
  assert (bundled_record o) as (_ & name & gs & Hshaped).
  { induction Hreach as [|o tag v _ IH]; [| apply bundled_set_value, IH].
    split; [reflexivity |]. exists None, [(None, None, None)].
    eexists _, _. split; [reflexivity |]. split; [reflexivity |]. repeat constructor. }
  exists name, gs. split; [exact Hshaped |].
  destruct Hshaped as (ts & vs & -> & _ & Hs).
  apply slots_shaped_length in Hs. simpl. lia.
Qed.
